(** * Compartment segmentation: a shallow embedding of
      [segmentation/compartments.py] and the properties of its three
      functions, [segment_compartments_from_holes], [segment_zstack] and
      [cluster_by_centroid].

    The numerical primitives of scikit-image, scikit-learn and shapely are
    interfaces here (type classes): the Python file only composes them.  What
    the file itself does (the order of the calls, the offsets it sweeps, the
    contours it keeps, the errors it lets through, the columns it writes) is
    written out as executable definitions. *)

From Stdlib Require Import String DecimalString.
From Stdlib Require Import List ZArith QArith Bool Lia Sorted.
From Stdlib Require Import DecimalZ DecimalPos Ascii.
Import ListNotations.

Local Open Scope string_scope.
Local Open Scope list_scope.
Local Open Scope Z_scope.

(* ================================================================== *)
(** ** Exceptions and results *)
(* ================================================================== *)

(** A Python exception: its class name and its message. *)
Record exn : Type := mk_exn { exn_class : string; exn_msg : string }.

Definition ValueError (msg : string) : exn := mk_exn "ValueError" msg.
Definition KeyError (key : string) : exn := mk_exn "KeyError" key.
Definition AttributeError (msg : string) : exn := mk_exn "AttributeError" msg.

(** The error class the specification names for a malformed image.  No such
    class is defined or imported by the Python file. *)
Definition InvalidImageError_class : string := "InvalidImageError".

(** A call either returns a value or raises. *)
Inductive result (A : Type) : Type :=
| Ok (a : A)
| Raise (e : exn).
Arguments Ok {A} a.
Arguments Raise {A} e.

Definition res_bind {A B : Type} (c : result A) (k : A -> result B) : result B :=
  match c with
  | Ok a => k a
  | Raise e => Raise e
  end.

Notation "x <~ c ;; k" := (res_bind c (fun x => k))
  (at level 61, c at next level, right associativity).

Definition is_ok {A : Type} (c : result A) : bool :=
  match c with Ok _ => true | Raise _ => false end.

(* ================================================================== *)
(** ** Arrays, contours, polygons *)
(* ================================================================== *)

(** A numpy array: its shape and its elements in row-major order. *)
Record ndarray (A : Type) : Type := mk_ndarray { shape : list nat; data : list A }.
Arguments mk_ndarray {A} shape data.
Arguments shape {A} n.
Arguments data {A} n.

(** Numeric images hold rationals: every value a float or an integer pixel
    takes is one, and the file only compares pixels. *)
Definition Image : Type := ndarray Q.

Definition Qlt_bool (a b : Q) : bool := negb (Qle_bool b a).

(** [skimage.img_as_bool] on a floating-point image: [image > 0.5], half of the
    upper end of the float range [(-1, 1)].  [threshold_local] returns a
    floating-point image, which is what the sweep passes here. *)
Definition img_as_bool (a : Image) : ndarray bool :=
  mk_ndarray (shape a) (map (fun v => Qlt_bool (1 # 2) v) (data a)).

(** [np.min] and [np.max]: a reduction over all elements, which raises on an
    array with none. *)
Definition np_min (a : Image) : result Q :=
  match data a with
  | [] => Raise (ValueError "zero-size array to reduction operation minimum which has no identity")
  | v :: vs => Ok (fold_left (fun m x => if Qlt_bool x m then x else m) vs v)
  end.

Definition np_max (a : Image) : result Q :=
  match data a with
  | [] => Raise (ValueError "zero-size array to reduction operation maximum which has no identity")
  | v :: vs => Ok (fold_left (fun m x => if Qlt_bool m x then x else m) vs v)
  end.

(** A contour as [find_contours] returns it: an (n, 2) array, one
    (row, column) pair per vertex. *)
Definition contour : Type := list (Q * Q).

(** [np.fliplr] on an (n, 2) array swaps its two columns. *)
Definition fliplr (c : contour) : list (Q * Q) :=
  map (fun rc => (snd rc, fst rc)) c.

(** A shapely polygon, as the coordinate sequence its constructor was given
    ((x, y) pairs).  shapely closes the ring itself, which adds at most one
    vertex and removes none. *)
Record Polygon : Type := mk_Polygon { shell : list (Q * Q) }.

(** The dict appended per kept contour:
    [{'offset': offst, 'boundary': pol}]. *)
Record PolygonHypothesis : Type := mk_hypothesis { offset : Z; boundary : Polygon }.

Definition n_vertices (h : PolygonHypothesis) : nat := length (shell (boundary h)).

(* ================================================================== *)
(** ** The scikit-image interface *)
(* ================================================================== *)

(** The library calls of [segment_compartments_from_holes].  Each is a
    function of its arguments alone and may raise. *)
Class Skimage : Type := {
  rescale_intensity : Image -> Q * Q -> result Image;
  invert : Image -> result Image;
  img_as_float : Image -> result Image;
  img_as_ubyte : Image -> result Image;
  entropy : Image -> Image -> result Image;
  disk : Z -> result Image;
  threshold_local : Image -> Z -> Z -> result Image;
  label : ndarray bool -> result (ndarray Z);
  find_contours : ndarray Z -> Q -> result (list contour)
}.

(* ================================================================== *)
(** ** The logger and the state of the world *)
(* ================================================================== *)

(** The two messages the file logs, by their fields. *)
Inductive log_msg : Type :=
| BlobsFound (offst : Z) (n_contours : nat) (th_min th_max : Q)
| ProcessingZ (z : Z).

(** What a call can change: the records the module's logger received, and the
    state of the collaborators outside this file (the on-disk cache). *)
Record world (store : Type) : Type := mk_world { log : list log_msg; disk_store : store }.
Arguments mk_world {store} log disk_store.
Arguments log {store} w.
Arguments disk_store {store} w.

(** A computation that reads and writes the world and may raise.  What was
    written before an exception stays written. *)
Definition M (store A : Type) : Type := world store -> result A * world store.

Definition ret {store A : Type} (a : A) : M store A := fun w => (Ok a, w).

Definition bind {store A B : Type} (c : M store A) (k : A -> M store B) : M store B :=
  fun w => match c w with
           | (Ok a, w') => k a w'
           | (Raise e, w') => (Raise e, w')
           end.

Definition lift {store A : Type} (c : result A) : M store A := fun w => (c, w).

Definition log_debug {store : Type} (m : log_msg) : M store unit :=
  fun w => (Ok tt, mk_world (log w ++ [m]) (disk_store w)).

Notation "x <- c ;; k" := (bind c (fun x => k))
  (at level 61, c at next level, right associativity).
Notation "c ;;; k" := (bind c (fun _ => k))
  (at level 61, right associativity).

(* ================================================================== *)
(** ** [segment_compartments_from_holes] *)
(* ================================================================== *)

(** [np.iinfo(np.uint16).max]. *)
Definition uint16_max : Z := 65535.

(** [np.arange(start, stop, step=1)] on integers. *)
Definition np_arange (start stop : Z) : list Z :=
  map (fun i => start + Z.of_nat i) (seq 0 (Z.to_nat (stop - start))).

(** The offsets of the sweep: [np.arange(start=1, stop=300, step=1)]. *)
Definition sweep_offsets : list Z := np_arange 1 300.

(** The values one pass of the sweep binds before it looks at the contours
    (lines 33 to 38). *)
Record sweep_locals : Type := mk_locals {
  local_thresh : Image;
  binary_local : ndarray bool;
  label_image : ndarray Z;
  contours : list contour
}.

(** The inner loop (lines 42 to 51): a contour of fewer than three vertices is
    passed over, every other one becomes a polygon of its flipped coordinates
    and is appended with the offset of the pass. *)
Fixpoint append_contours (offst : Z) (cs : list contour)
    (segmented_polygons : list PolygonHypothesis) : list PolygonHypothesis :=
  match cs with
  | [] => segmented_polygons
  | contr :: rest =>
      if (length contr <? 3)%nat then append_contours offst rest segmented_polygons
      else
        let pol := mk_Polygon (fliplr contr) in
        append_contours offst rest (segmented_polygons ++ [mk_hypothesis offst pol])
  end.

Section Segmentation.
Context {SK : Skimage} {store : Type}.

(** Lines 24 to 29: the texture image the sweep works on. *)
Definition entropy_texture (img : Image) : result Image :=
  data0 <~ rescale_intensity img (0%Q, inject_Z uint16_max) ;;
  data1 <~ invert data0 ;;
  f <~ img_as_float data1 ;;
  r <~ rescale_intensity f (0, 1)%Q ;;
  data2 <~ img_as_ubyte r ;;
  selem <~ disk 30 ;;
  e <~ entropy data2 selem ;;
  r' <~ rescale_intensity e (0, 1)%Q ;;
  entr_img <~ img_as_ubyte r' ;;
  invert entr_img.

(** Lines 33 to 38 of one pass. *)
Definition sweep_pass (entr_img : Image) (offst : Z) : result sweep_locals :=
  th <~ threshold_local entr_img 35 offst ;;
  let bin := img_as_bool th in
  lbl <~ label bin ;;
  cs <~ find_contours lbl (9 # 10) ;;
  Ok (mk_locals th bin lbl cs).

(** One pass of the loop over the offsets (lines 33 to 51).  The log line
    formats [np.min] and [np.max] of the threshold map before it is sent. *)
Definition sweep_body (entr_img : Image) (offst : Z)
    (segmented_polygons : list PolygonHypothesis) : M store (list PolygonHypothesis) :=
  s <- lift (sweep_pass entr_img offst) ;;
  mn <- lift (np_min (local_thresh s)) ;;
  mx <- lift (np_max (local_thresh s)) ;;
  log_debug (BlobsFound offst (length (contours s)) mn mx) ;;;
  ret (append_contours offst (contours s) segmented_polygons).

(** The loop of line 32, over the offsets still to do. *)
Fixpoint sweep_loop (entr_img : Image) (offsets : list Z)
    (segmented_polygons : list PolygonHypothesis) : M store (list PolygonHypothesis) :=
  match offsets with
  | [] => ret segmented_polygons
  | offst :: rest =>
      acc <- sweep_body entr_img offst segmented_polygons ;;
      sweep_loop entr_img rest acc
  end.

(** Lines 31 to 53: the sweep from an empty list. *)
Definition threshold_sweep (entr_img : Image) : M store (list PolygonHypothesis) :=
  sweep_loop entr_img sweep_offsets [].

Definition segment_compartments_from_holes (img : Image) : M store (list PolygonHypothesis) :=
  entr_img <- lift (entropy_texture img) ;;
  threshold_sweep entr_img.

End Segmentation.

(* ================================================================== *)
(** ** Data frames *)
(* ================================================================== *)

(** What a cell of the polygon table holds: an int, a float, a polygon, NaN,
    or any other object, given by the name of its type and, when it has a
    [centroid] attribute, the coordinate pairs of that centroid. *)
Inductive cell : Type :=
| CInt (z : Z)
| CFloat (q : Q)
| CPolygon (p : Polygon)
| CNaN
| CObject (type_name : string) (centroid : option (list (Q * Q))).

(** The name of the Python type of the value of a cell. *)
Definition type_name_of (c : cell) : string :=
  match c with
  | CInt _ => "int"
  | CFloat _ => "float"
  | CPolygon _ => "Polygon"
  | CNaN => "float"
  | CObject type_name _ => type_name
  end.

(** The exception of an attribute access that fails. *)
Definition no_attribute (type_name attribute : string) : exn :=
  AttributeError
    ("'" ++ type_name ++ "' object has no attribute '" ++ attribute ++ "'")%string.

(** The cell holds something that has a [centroid]. *)
Definition has_centroid (c : cell) : bool :=
  match c with
  | CPolygon _ => true
  | CObject _ (Some _) => true
  | _ => false
  end.

(** A pandas [DataFrame]: the row labels, and the columns in order, each with
    one cell per row. *)
Record DataFrame : Type := mk_DataFrame {
  index : list Z;
  columns : list (string * list cell)
}.

Definition nrows (df : DataFrame) : nat := length (index df).

Definition column_names (df : DataFrame) : list string := map fst (columns df).

Fixpoint lookup_column (name : string) (cols : list (string * list cell))
    : option (list cell) :=
  match cols with
  | [] => None
  | (n, vs) :: rest => if String.eqb n name then Some vs else lookup_column name rest
  end.

Definition has_column (name : string) (df : DataFrame) : bool :=
  match lookup_column name (columns df) with Some _ => true | None => false end.

(** Writing a column: over the one of that name when there is one, after the
    last column otherwise. *)
Fixpoint set_column (name : string) (vs : list cell) (cols : list (string * list cell))
    : list (string * list cell) :=
  match cols with
  | [] => [(name, vs)]
  | (n, old) :: rest =>
      if String.eqb n name then (n, vs) :: rest else (n, old) :: set_column name vs rest
  end.

(** [RangeIndex(n)]: the labels 0 to n - 1. *)
Definition range_index (n : nat) : list Z := map Z.of_nat (seq 0 n).

(** [pd.DataFrame()]. *)
Definition empty_frame : DataFrame := mk_DataFrame [] [].

(** [pd.DataFrame(compartments)] on the list of dicts of the segmenter: a
    column per key, a row per dict; no dict, no column. *)
Definition DataFrame_of_records (records : list PolygonHypothesis) : DataFrame :=
  match records with
  | [] => empty_frame
  | _ :: _ =>
      mk_DataFrame (range_index (length records))
        [("offset", map (fun h => CInt (offset h)) records);
         ("boundary", map (fun h => CPolygon (boundary h)) records)]
  end.

(** [df.loc[:, name] = v] with a scalar [v]: every row of the column becomes
    [v].  pandas refuses to add a column this way to a frame without rows. *)
Definition loc_set_scalar (df : DataFrame) (name : string) (v : cell) : result DataFrame :=
  if has_column name df then
    Ok (mk_DataFrame (index df) (set_column name (repeat v (nrows df)) (columns df)))
  else if (nrows df =? 0)%nat then
    Raise (ValueError "cannot set a frame with no defined index and a scalar")
  else
    Ok (mk_DataFrame (index df) (set_column name (repeat v (nrows df)) (columns df))).

(** A column as [append] sees it: its cells, or one NaN per row when the frame
    has no such column. *)
Definition col_or_nan (name : string) (df : DataFrame) : list cell :=
  match lookup_column name (columns df) with
  | Some vs => vs
  | None => repeat CNaN (nrows df)
  end.

Definition mem_string (s : string) (l : list string) : bool :=
  existsb (String.eqb s) l.

(** [out.append(df)]: the rows of [out], then those of [df]; the columns of
    [out], then those only [df] has; NaN where a frame lacks a column. *)
Definition append (out df : DataFrame) : DataFrame :=
  let names :=
    column_names out
    ++ filter (fun n => negb (mem_string n (column_names out))) (column_names df) in
  mk_DataFrame (index out ++ index df)
    (map (fun n => (n, col_or_nan n out ++ col_or_nan n df)) names).

(** [df.reset_index(drop=True)]. *)
Definition reset_index_drop (df : DataFrame) : DataFrame :=
  mk_DataFrame (range_index (nrows df)) (columns df).

(** [df[name]]. *)
Definition getitem (df : DataFrame) (name : string) : result (list cell) :=
  match lookup_column name (columns df) with
  | Some vs => Ok vs
  | None => Raise (KeyError name)
  end.

(** [df.assign(name=values)] with an array of values: a copy of the frame with
    the column written; the array must have one value per row. *)
Definition assign (df : DataFrame) (name : string) (vs : list cell) : result DataFrame :=
  if (length vs =? nrows df)%nat then
    Ok (mk_DataFrame (index df) (set_column name vs (columns df)))
  else Raise (ValueError "Length of values does not match length of index").

(** The [z] column of a table, empty when it has none. *)
Definition z_column (df : DataFrame) : list cell :=
  match lookup_column "z" (columns df) with
  | Some vs => vs
  | None => []
  end.

(* ================================================================== *)
(** ** [segment_zstack] *)
(* ================================================================== *)

(** What [image_structure.image(ix)] returns. *)
Record ImageMetadata : Type := mk_metadata {
  md_image : Image;
  md_z : Z;
  md_channel : Z;
  md_frame : Z
}.

(** Modelled from the spec: the class [CachedImageFile] of the module
    [cached], which is not among the sources.  The image source lists its
    z-indices, looks a (channel, z, frame) coordinate up to a handle or to
    nothing, and serves the image of a handle. *)
Record CachedImageFile (store : Type) : Type := mk_image_file {
  zstacks : list Z;
  ix_at : Z -> Z -> Z -> option Z;
  image : Z -> M store ImageMetadata;
  cache_path : string
}.
Arguments zstacks {store} c.
Arguments ix_at {store} c _ _ _.
Arguments image {store} c _.
Arguments cache_path {store} c.

(** The functions the file imports from the modules [cached] and
    [measurements], which are not among the sources: the memoizing call and
    the two table transformations of the pipe. *)
Class Collaborators (store : Type) : Type := {
  cached_step :
    string -> (Image -> M store (list PolygonHypothesis)) -> Image -> string
    -> M store (list PolygonHypothesis);
  simple_polygon : DataFrame -> M store DataFrame;
  concentric : DataFrame -> M store DataFrame
}.

(** [str(n)] of a Python int. *)
Definition str_of_int (n : Z) : string := NilZero.string_of_int (Z.to_int n).

(** [f"z{img_md.z}c{img_md.channel}t{img_md.frame}-bags.obj"]. *)
Definition bags_filename (img_md : ImageMetadata) : string :=
  ("z" ++ str_of_int (md_z img_md) ++ "c" ++ str_of_int (md_channel img_md)
   ++ "t" ++ str_of_int (md_frame img_md) ++ "-bags.obj")%string.

Section ZStack.
Context {SK : Skimage} {store : Type} {CO : Collaborators store}.

(** The loop of lines 59 to 78, over the z-indices still to do. *)
Fixpoint zstack_loop (image_structure : CachedImageFile store) (channel frame : Z)
    (zs : list Z) (out : DataFrame) : M store DataFrame :=
  match zs with
  | [] => ret out
  | z :: rest =>
      match ix_at image_structure channel z frame with
      | None => zstack_loop image_structure channel frame rest out
      | Some ix =>
          img_md <- image image_structure ix ;;
          log_debug (ProcessingZ z) ;;;
          let cdir := cache_path image_structure in
          compartments <- cached_step (bags_filename img_md)
                            segment_compartments_from_holes (md_image img_md) cdir ;;
          df <- lift (loc_set_scalar (DataFrame_of_records compartments) "z" (CInt z)) ;;
          df <- simple_polygon df ;;
          df <- concentric df ;;
          zstack_loop image_structure channel frame rest (append out df)
      end
  end.

Definition segment_zstack (image_structure : CachedImageFile store)
    (channel frame : Z) : M store DataFrame :=
  out <- zstack_loop image_structure channel frame (zstacks image_structure) empty_frame ;;
  ret (reset_index_drop out).

End ZStack.

(* ================================================================== *)
(** ** [cluster_by_centroid] *)
(* ================================================================== *)

(** The calls into shapely and scikit-learn. [centroid_coords b] is
    [b.centroid.coords[:]], the list of the centroid's coordinate pairs. *)
Class Sklearn : Type := {
  centroid_coords : Polygon -> list (Q * Q);
  StandardScaler_fit_transform : list (Q * Q) -> result (list (Q * Q));
  DBSCAN_fit_labels : Q -> Z -> list (Q * Q) -> result (list Z)
}.

Definition default_eps : Q := 1 # 100.
Definition default_min_samples : Z := 10.

Section Clustering.
Context {SL : Sklearn}.

(** The lambda of line 83 on one cell of the column: the coordinates of the
    centroid of whatever has one; Python's [AttributeError], which names the
    type of the value, for an int, a float (NaN is one) or another object
    without the attribute. *)
Definition centroid_of_cell (b : cell) : result (list (Q * Q)) :=
  match b with
  | CPolygon p => Ok (centroid_coords p)
  | CObject _ (Some coords) => Ok coords
  | _ => Raise (no_attribute (type_name_of b) "centroid")
  end.

(** [Series.apply]: the function on every cell in order, up to the first that
    raises. *)
Fixpoint series_apply {A : Type} (f : cell -> result A) (col : list cell)
    : result (list A) :=
  match col with
  | [] => Ok []
  | c :: rest =>
      y <~ f c ;;
      ys <~ series_apply f rest ;;
      Ok (y :: ys)
  end.

Definition cluster_by_centroid (df : DataFrame) (eps : Q) (min_samples : Z)
    : result DataFrame :=
  col <~ getitem df "boundary" ;;
  X <~ series_apply centroid_of_cell col ;;
  let X := concat X in
  X <~ StandardScaler_fit_transform X ;;
  labels <~ DBSCAN_fit_labels eps min_samples X ;;
  assign df "cluster" (map CInt labels).

End Clustering.

(* ================================================================== *)
(** ** What the statements below are phrased with *)
(* ================================================================== *)

Fixpoint zip_with {A B C : Type} (f : A -> B -> C) (l : list A) (l' : list B) : list C :=
  match l, l' with
  | a :: r, b :: r' => f a b :: zip_with f r r'
  | _, _ => []
  end.

(** The binarization the specification words: the texture image against the
    threshold map, a pixel being foreground iff its texture value exceeds its
    own threshold ([image > local_thresh]). *)
Definition binarize_against (texture thresh : Image) : ndarray bool :=
  mk_ndarray (shape texture)
    (zip_with (fun v t => Qlt_bool t v) (data texture) (data thresh)).

(** The polygons one pass keeps of a list of contours, in order. *)
Definition kept_polygons (offst : Z) (cs : list contour) : list PolygonHypothesis :=
  map (fun c => mk_hypothesis offst (mk_Polygon (fliplr c)))
    (filter (fun c => negb (length c <? 3)%nat) cs).

(** A well-formed image: two dimensions and at least one pixel. *)
Definition well_formed_image (a : Image) : Prop :=
  length (shape a) = 2%nat /\ data a <> [].

(** A well-formed frame: every column has one cell per row. *)
Definition well_formed_frame (df : DataFrame) : Prop :=
  Forall (fun c => length (snd c) = nrows df) (columns df).

(** Running a list of stages in order, up to the first that raises. *)
Fixpoint run_stages (fs : list (Image -> result Image)) (a : Image) : result Image :=
  match fs with
  | [] => Ok a
  | f :: rest => b <~ f a ;; run_stages rest b
  end.

Section Outcomes.
Context {SK : Skimage}.

(** The library calls of lines 24 to 29, in the order the file makes them. *)
Definition texture_stages : list (Image -> result Image) :=
  [ (fun a => rescale_intensity a (0%Q, inject_Z uint16_max));
    invert;
    img_as_float;
    (fun a => rescale_intensity a (0, 1)%Q);
    img_as_ubyte;
    (fun a => selem <~ disk 30 ;; entropy a selem);
    (fun a => rescale_intensity a (0, 1)%Q);
    img_as_ubyte;
    invert ].

(** What one pass yields apart from the log: the contours found, or the
    exception of the first call of the pass that raised. *)
Definition pass_outcome (entr_img : Image) (offst : Z) : result (list contour) :=
  s <~ sweep_pass entr_img offst ;;
  _ <~ np_min (local_thresh s) ;;
  _ <~ np_max (local_thresh s) ;;
  Ok (contours s).

(** The contours of a pass, none when the pass raised. *)
Definition contours_at (entr_img : Image) (offst : Z) : list contour :=
  match pass_outcome entr_img offst with
  | Ok cs => cs
  | Raise _ => []
  end.

(** The value of the sweep over a list of offsets, without the world. *)
Fixpoint sweep_value (entr_img : Image) (offsets : list Z)
    (acc : list PolygonHypothesis) : result (list PolygonHypothesis) :=
  match offsets with
  | [] => Ok acc
  | offst :: rest =>
      cs <~ pass_outcome entr_img offst ;;
      sweep_value entr_img rest (append_contours offst cs acc)
  end.

End Outcomes.

Section ZStackNotions.
Context {store : Type}.

(** The z-index has an image at (channel, z, frame). *)
Definition has_image (s : CachedImageFile store) (channel frame z : Z) : bool :=
  match ix_at s channel z frame with Some _ => true | None => false end.

(** A z cell that names a declared z-index with an image. *)
Definition z_of_a_slice (s : CachedImageFile store) (channel frame : Z) (c : cell) : Prop :=
  exists z, c = CInt z /\ In z (zstacks s) /\ has_image s channel frame z = true.

(** Modelled from the spec: the two table transformations of the module
    [measurements], which is not among the sources, take a table of polygon
    rows and return the same rows or fewer, with columns added or modified.
    The z tag of a row is not theirs to change: the z cells of the rows a
    transformation returns (NaN where it returns no such column) are z cells
    of the rows it was given. *)
Definition keeps_z (f : DataFrame -> M store DataFrame) : Prop :=
  forall df w df' w', f df w = (Ok df', w') ->
    incl (col_or_nan "z" df') (col_or_nan "z" df).

End ZStackNotions.

Section ClusteringNotions.
Context {SL : Sklearn}.

(** Lines 83 to 85: the standardized centroids of the boundary column. *)
Definition standardized_centroids (df : DataFrame) : result (list (Q * Q)) :=
  col <~ getitem df "boundary" ;;
  X <~ series_apply centroid_of_cell col ;;
  StandardScaler_fit_transform (concat X).

(** DBSCAN's contract on its labels: a cluster number from 0, or -1. *)
Definition labels_in_range : Prop :=
  forall eps ms X labels,
    DBSCAN_fit_labels eps ms X = Ok labels -> Forall (fun l => -1 <= l) labels.

End ClusteringNotions.

(* ================================================================== *)
(** ** Stand-ins for the libraries, for the concrete runs *)
(* ================================================================== *)

(** The instances below are small libraries of this development's own, used
    for the concrete runs only; every general statement holds for all
    instances of the interfaces.  Each one says how far it goes with the
    library it stands for: connected components and contours are computed the
    way scikit-image computes them, on rationals; the texture calls and the
    local threshold are simplifications, exact on the inputs named there. *)

(** A stand-in for [rescale_intensity]: it starts, like the library, with
    [np.min] of the image, which raises on an image without pixels; it does
    not rescale, and hands any other image on as it is. *)
Definition rescale_standin (a : Image) (out_range : Q * Q) : result Image :=
  match data a with
  | [] => Raise (ValueError "zero-size array to reduction operation minimum which has no identity")
  | _ :: _ => Ok a
  end.

(** A stand-in for [threshold_local]: the pixel itself minus the offset,
    where the library takes the Gaussian-weighted mean of the block around
    the pixel.  It does not look at [block_size].  On a constant image the
    two agree (the weighted mean of a constant is that constant); on any
    other image they differ. *)
Definition threshold_pointwise (a : Image) (block_size offst : Z) : result Image :=
  Ok (mk_ndarray (shape a) (map (fun v => Qred (v - inject_Z offst)) (data a))).

(** Rows and columns of an array of one or two dimensions. *)
Definition rows_cols {A : Type} (a : ndarray A) : nat * nat :=
  match shape a with
  | [r; c] => (r, c)
  | _ => (1%nat, length (data a))
  end.

(** The raster indices of the pixels that touch pixel [i], diagonals
    included. *)
Definition neighbours8 (rows cols i : nat) : list nat :=
  let r := Z.of_nat (i / cols) in
  let c := Z.of_nat (i mod cols) in
  flat_map
    (fun dr =>
       flat_map
         (fun dc =>
            let r' := r + dr in
            let c' := c + dc in
            if (0 <=? r') && (r' <? Z.of_nat rows) && (0 <=? c') && (c' <? Z.of_nat cols)
               && negb ((dr =? 0) && (dc =? 0))
            then [Z.to_nat (r' * Z.of_nat cols + c')]
            else [])
         [-1; 0; 1])
    [-1; 0; 1].

(** One round of merging: a foreground pixel takes the least root among its
    own and those of the foreground pixels that touch it. *)
Definition spread_roots (rows cols : nat) (fg : list bool) (roots : list nat) : list nat :=
  map (fun i =>
         if nth i fg false then
           fold_left
             (fun m j => if nth j fg false then Nat.min m (nth j roots 0%nat) else m)
             (neighbours8 rows cols i) (nth i roots 0%nat)
         else 0%nat)
    (seq 0 (length fg)).

(** The root of every foreground pixel: the least raster index of its
    connected component, reached after as many rounds as there are pixels. *)
Definition component_roots (rows cols : nat) (fg : list bool) : list nat :=
  Nat.iter (length fg) (spread_roots rows cols fg) (seq 0 (length fg)).

(** [skimage.measure.label] on a boolean image of one or two dimensions:
    the components of the foreground under full connectivity, numbered
    1, 2, ... in the raster order of their first pixels; 0 is the
    background. *)
Definition label_components (b : ndarray bool) : result (ndarray Z) :=
  let '(rows, cols) := rows_cols b in
  let fg := data b in
  let roots := component_roots rows cols fg in
  let is_root := fun j => nth j fg false && (nth j roots 0%nat =? j)%nat in
  Ok (mk_ndarray (shape b)
        (map (fun i =>
                if nth i fg false then
                  Z.of_nat (length (filter is_root (seq 0 (S (nth i roots 0%nat)))))
                else 0)
           (seq 0 (length fg)))).

Definition point_eqb (p q : Q * Q) : bool :=
  Qeq_bool (fst p) (fst q) && Qeq_bool (snd p) (snd q).

(** [_get_fraction]: where the level lies between two neighbouring pixels. *)
Definition get_fraction (from_value to_value level : Q) : Q :=
  if Qeq_bool to_value from_value then 0%Q
  else ((level - from_value) / (to_value - from_value))%Q.

(** The segments marching squares draws in the square whose upper left
    pixel is (r0, c0), with the orientation and the treatment of saddles that
    [find_contours] has by default ([fully_connected='low']). *)
Definition square_segments (lbl : ndarray Z) (cols : nat) (level : Q) (r0 c0 : nat)
    : list ((Q * Q) * (Q * Q)) :=
  let px := fun r c => inject_Z (nth (r * cols + c) (data lbl) 0) in
  let q := fun n => inject_Z (Z.of_nat n) in
  let r1 := S r0 in
  let c1 := S c0 in
  let ul := px r0 c0 in
  let ur := px r0 c1 in
  let ll := px r1 c0 in
  let lr := px r1 c1 in
  let top := (q r0, Qred (q c0 + get_fraction ul ur level)) in
  let bottom := (q r1, Qred (q c0 + get_fraction ll lr level)) in
  let left := (Qred (q r0 + get_fraction ul ll level), q c0) in
  let right := (Qred (q r0 + get_fraction ur lr level), q c1) in
  let square_case :=
    ((if Qlt_bool level ul then 1 else 0) + (if Qlt_bool level ur then 2 else 0)
     + (if Qlt_bool level ll then 4 else 0) + (if Qlt_bool level lr then 8 else 0))%nat in
  match square_case with
  | 1%nat => [(top, left)]
  | 2%nat => [(right, top)]
  | 3%nat => [(right, left)]
  | 4%nat => [(left, bottom)]
  | 5%nat => [(top, bottom)]
  | 6%nat => [(right, top); (left, bottom)]
  | 7%nat => [(right, bottom)]
  | 8%nat => [(bottom, right)]
  | 9%nat => [(top, left); (bottom, right)]
  | 10%nat => [(bottom, top)]
  | 11%nat => [(bottom, left)]
  | 12%nat => [(left, right)]
  | 13%nat => [(top, right)]
  | 14%nat => [(left, top)]
  | _ => []
  end.

(** The state of [_assemble_contours]: the contours under construction by
    number, and the two dictionaries from a first and from a last point to
    the number of the contour that has it. *)
Record assembly : Type := mk_assembly {
  next_index : nat;
  open_contours : list (nat * contour);
  starts : list ((Q * Q) * nat);
  ends : list ((Q * Q) * nat)
}.

Fixpoint dict_get (k : Q * Q) (d : list ((Q * Q) * nat)) : option nat :=
  match d with
  | [] => None
  | (k', v) :: rest => if point_eqb k' k then Some v else dict_get k rest
  end.

Definition dict_remove (k : Q * Q) (d : list ((Q * Q) * nat)) : list ((Q * Q) * nat) :=
  filter (fun e => negb (point_eqb (fst e) k)) d.

Definition dict_set (k : Q * Q) (v : nat) (d : list ((Q * Q) * nat))
    : list ((Q * Q) * nat) :=
  (k, v) :: dict_remove k d.

Definition contour_of (n : nat) (cs : list (nat * contour)) : contour :=
  match find (fun e => (fst e =? n)%nat) cs with
  | Some (_, c) => c
  | None => []
  end.

Definition set_contour (n : nat) (c : contour) (cs : list (nat * contour))
    : list (nat * contour) :=
  map (fun e => if (fst e =? n)%nat then (n, c) else e) cs.

Definition drop_contour (n : nat) (cs : list (nat * contour)) : list (nat * contour) :=
  filter (fun e => negb (fst e =? n)%nat) cs.

(** One segment through [_assemble_contours]: it closes a contour, joins
    two (the one made first keeps its number), extends one at its head or
    at its tail, or starts a new one. *)
Definition assemble_step (st : assembly) (seg : (Q * Q) * (Q * Q)) : assembly :=
  let '(from_point, to_point) := seg in
  if point_eqb from_point to_point then st
  else
    let tail := dict_get to_point (starts st) in
    let head := dict_get from_point (ends st) in
    match tail, head with
    | Some t, Some h =>
        let starts1 := dict_remove to_point (starts st) in
        let ends1 := dict_remove from_point (ends st) in
        if (t =? h)%nat then
          mk_assembly (next_index st)
            (set_contour h (contour_of h (open_contours st) ++ [to_point]) (open_contours st))
            starts1 ends1
        else
          let joined := contour_of h (open_contours st) ++ contour_of t (open_contours st) in
          let first_point := hd from_point joined in
          let last_point := last joined to_point in
          if (h <? t)%nat then
            mk_assembly (next_index st)
              (drop_contour t (set_contour h joined (open_contours st)))
              (dict_set first_point h starts1) (dict_set last_point h ends1)
          else
            mk_assembly (next_index st)
              (drop_contour h (set_contour t joined (open_contours st)))
              (dict_set first_point t (dict_remove first_point starts1))
              (dict_set last_point t ends1)
    | None, None =>
        mk_assembly (S (next_index st))
          (open_contours st ++ [(next_index st, [from_point; to_point])])
          (dict_set from_point (next_index st) (starts st))
          (dict_set to_point (next_index st) (ends st))
    | Some t, None =>
        mk_assembly (next_index st)
          (set_contour t (from_point :: contour_of t (open_contours st)) (open_contours st))
          (dict_set from_point t (dict_remove to_point (starts st))) (ends st)
    | None, Some h =>
        mk_assembly (next_index st)
          (set_contour h (contour_of h (open_contours st) ++ [to_point]) (open_contours st))
          (starts st) (dict_set to_point h (dict_remove from_point (ends st)))
    end.

(** [skimage.measure.find_contours] with its default options, on rationals:
    it refuses arrays that are not two-dimensional or are smaller than
    2 x 2, collects the segments of all squares in raster order and assembles
    them into contours, returned in the order in which they were started. *)
Definition find_contours_marching_squares (lbl : ndarray Z) (level : Q)
    : result (list contour) :=
  match shape lbl with
  | [rows; cols] =>
      if (rows <? 2)%nat || (cols <? 2)%nat then
        Raise (ValueError "Input array must be at least 2x2.")
      else
        let segments :=
          flat_map
            (fun r0 => flat_map (square_segments lbl cols level r0) (seq 0 (cols - 1)))
            (seq 0 (rows - 1)) in
        Ok (map snd (open_contours
                       (fold_left assemble_step segments (mk_assembly 0 [] [] []))))
  | _ => Raise (ValueError "Only 2D arrays are supported.")
  end.

(** The contours of the label image that has label 1 at (0, 0) and label 2
    at (2, 2) of a 4 x 4 grid, at level 0.9: the two-vertex open contour that
    cuts the corner off, and the closed diamond around (2, 2). *)
Definition corner_contour : contour := [(0, 1 # 10); (1 # 10, 0)]%Q.

Definition diamond_contour : contour :=
  [(51 # 20, 2); (2, 29 # 20); (29 # 20, 2); (2, 51 # 20); (51 # 20, 2)]%Q.

(** The stand-in for scikit-image.  Its texture calls compute nothing: an
    image is its own texture here, which it is not in the library. *)
Definition skimage_standin : Skimage := {|
  rescale_intensity := rescale_standin;
  invert := fun a => Ok a;
  img_as_float := fun a => Ok a;
  img_as_ubyte := fun a => Ok a;
  entropy := fun a _ => Ok a;
  disk := fun _ => Ok (mk_ndarray [1%nat; 1%nat] [1%Q]);
  threshold_local := threshold_pointwise;
  label := label_components;
  find_contours := find_contours_marching_squares
|}.


(** A 2 x 2 texture image of value 255 everywhere. *)
Definition white_square : Image :=
  mk_ndarray [2%nat; 2%nat] [255; 255; 255; 255]%Q.

(** A 4 x 4 texture image: 200 at (0, 0) and at (2, 2), 0 elsewhere. *)
Definition two_blobs : Image :=
  mk_ndarray [4%nat; 4%nat]
    [200; 0; 0; 0;
     0; 0; 0; 0;
     0; 0; 200; 0;
     0; 0; 0; 0]%Q.

(** An image of shape (0, 0). *)
Definition no_pixels : Image := mk_ndarray [0%nat; 0%nat] [].

(** The world before a run: an empty log, an empty cache. *)
Definition cache : Type := list (string * list PolygonHypothesis).

Definition fresh_world : world cache := mk_world [] [].

Fixpoint cache_lookup (key : string) (c : cache) : option (list PolygonHypothesis) :=
  match c with
  | [] => None
  | (k, v) :: rest => if String.eqb k key then Some v else cache_lookup key rest
  end.

(** Modelled from the spec: [cached_step] of the module [cached], which is not
    among the sources.  It memoizes by key: a stored result is returned as it
    is, anything else is computed and stored. *)
Definition cached_step_memo (fname : string)
    (fn : Image -> M cache (list PolygonHypothesis)) (arg : Image) (cache_folder : string)
    : M cache (list PolygonHypothesis) :=
  fun w =>
    let key := (cache_folder ++ "/" ++ fname)%string in
    match cache_lookup key (disk_store w) with
    | Some v => (Ok v, w)
    | None =>
        match fn arg w with
        | (Ok v, w') => (Ok v, mk_world (log w') ((key, v) :: disk_store w'))
        | (Raise e, w') => (Raise e, w')
        end
    end.

(** Collaborators whose table transformations return the table they get. *)
Definition collaborators_standin : Collaborators cache := {|
  cached_step := cached_step_memo;
  simple_polygon := fun df => ret df;
  concentric := fun df => ret df
|}.

(** A stack that declares five z-indices and has an image at z = 2 only
    (channel 0, frame 0). *)
Definition sparse_stack : CachedImageFile cache := {|
  zstacks := [0; 1; 2; 3; 4];
  ix_at := fun c z t => if (c =? 0) && (z =? 2) && (t =? 0) then Some 7 else None;
  image := fun ix => ret (mk_metadata two_blobs 2 0 0);
  cache_path := "cache"
|}.

(** The sums of the shoelace formula over the edges of a ring: twice the
    signed area, and the two moments. *)
Fixpoint ring_sums (pts : list (Q * Q)) : Q * Q * Q :=
  match pts with
  | (x0, y0) :: rest =>
      match rest with
      | (x1, y1) :: _ =>
          let c := (x0 * y1 - x1 * y0)%Q in
          let '(a, sx, sy) := ring_sums rest in
          ((a + c)%Q, (sx + (x0 + x1) * c)%Q, (sy + (y0 + y1) * c)%Q)
      | [] => (0%Q, 0%Q, 0%Q)
      end
  | [] => (0%Q, 0%Q, 0%Q)
  end.

Definition close_ring (pts : list (Q * Q)) : list (Q * Q) :=
  match pts with
  | [] => []
  | p :: _ =>
      let q := last pts p in
      if Qeq_bool (fst q) (fst p) && Qeq_bool (snd q) (snd p) then pts else pts ++ [p]
  end.

(** A stand-in for the centroid of a polygon: the shoelace formula, which is
    the centroid of a polygon of non-zero area; an empty polygon has an empty
    centroid.  A polygon without area is given its first vertex here, which
    is not what shapely gives it. *)
Definition centroid_standin (p : Polygon) : list (Q * Q) :=
  match shell p with
  | [] => []
  | v :: _ =>
      let '(a, sx, sy) := ring_sums (close_ring (shell p)) in
      if Qeq_bool a 0 then [v]
      else [(Qred (sx / (3 * a)), Qred (sy / (3 * a)))%Q]
  end.

Definition column_mean (xs : list Q) : Q :=
  (fold_right Qplus 0 xs / inject_Z (Z.of_nat (length xs)))%Q.

(** A stand-in for [StandardScaler().fit_transform]: like the scaler it
    refuses an empty sample set; it centres every column and leaves its
    scale, which is what the scaler does to a column of variance 0 or 1 and
    to no other.  The message is the stand-in's own. *)
Definition scaler_standin (X : list (Q * Q)) : result (list (Q * Q)) :=
  match X with
  | [] => Raise (ValueError "Expected 2D array, got 1D array instead")
  | _ :: _ =>
      let mx := column_mean (map fst X) in
      let my := column_mean (map snd X) in
      Ok (map (fun p => (Qred (fst p - mx), Qred (snd p - my))%Q) X)
  end.

(** A stand-in for DBSCAN that validates its parameters before anything
    else, with messages of its own.  It does not search neighbourhoods: it
    answers as DBSCAN does on samples that all coincide, where every sample
    has all of them in its neighbourhood (one cluster when there are
    [min_samples] of them, noise otherwise), and only there. *)
Definition dbscan_standin (eps : Q) (min_samples : Z) (X : list (Q * Q))
    : result (list Z) :=
  if Qle_bool eps 0 then Raise (ValueError "eps must be positive.")
  else if min_samples <? 1 then Raise (ValueError "min_samples must be at least 1.")
  else
    match X with
    | [] => Raise (ValueError "Found array with 0 sample(s) while a minimum of 1 is required.")
    | _ :: _ =>
        if Z.of_nat (length X) <? min_samples then Ok (map (fun _ => -1) X)
        else Ok (map (fun _ => 0) X)
    end.

Definition sklearn_standin : Sklearn := {|
  centroid_coords := centroid_standin;
  StandardScaler_fit_transform := scaler_standin;
  DBSCAN_fit_labels := dbscan_standin
|}.

(** The triangle (0, 0), (3, 0), (0, 3); its centroid is (1, 1). *)
Definition triangle : Polygon := mk_Polygon [(0, 0); (3, 0); (0, 3)]%Q.

(** The same triangle found at the offsets 1 and 2 of slice 0. *)
Definition two_row_table : DataFrame :=
  mk_DataFrame [0; 1]
    [("offset", [CInt 1; CInt 2]);
     ("boundary", [CPolygon triangle; CPolygon triangle]);
     ("z", [CInt 0; CInt 0])].

(** A polygon table without rows. *)
Definition zero_row_table : DataFrame :=
  mk_DataFrame [] [("offset", []); ("boundary", []); ("z", [])].


(** A table that has been clustered before: its row carries the label 7. *)
Definition clustered_table : DataFrame :=
  mk_DataFrame [0]
    [("offset", [CInt 1]); ("boundary", [CPolygon triangle]); ("cluster", [CInt 7])].

(** The 199 hypotheses of the two-blob image: the diamond around (2, 2), in
    (x, y) order, once per offset from 1 to 199. *)
Definition two_blobs_hypotheses : list PolygonHypothesis :=
  map (fun o => mk_hypothesis o (mk_Polygon (fliplr diamond_contour))) (np_arange 1 200).

(** The table of the sparse stack: the 199 hypotheses of its one image, all
    tagged with z = 2. *)
Definition sparse_stack_table : DataFrame :=
  mk_DataFrame (range_index 199)
    [("offset", map CInt (np_arange 1 200));
     ("boundary", repeat (CPolygon (mk_Polygon (fliplr diamond_contour))) 199);
     ("z", repeat (CInt 2) 199)].

(* ================================================================== *)
(** ** Further notions: the log of a sweep, one slice of a stack *)
(* ================================================================== *)

(** The offset a log record of the sweep is about. *)
Definition logged_offset (m : log_msg) : option Z :=
  match m with
  | BlobsFound offst _ _ _ => Some offst
  | ProcessingZ _ => None
  end.

(** The characters of [str(n)]: digits and the minus sign. *)
Definition is_decimal_char (a : ascii) : bool :=
  existsb (Ascii.eqb a) (list_ascii_of_string "0123456789-").

Fixpoint string_forall (P : ascii -> bool) (s : string) : bool :=
  match s with
  | EmptyString => true
  | String a rest => P a && string_forall P rest
  end.

Section PassLog.
Context {SK : Skimage}.

(** The record a pass sends to the logger when it gets as far as line 39:
    the offset, the number of contours found (kept or not), and the extrema
    of the threshold map. *)
Definition pass_log_entry (entr_img : Image) (offst : Z) : option log_msg :=
  match sweep_pass entr_img offst with
  | Ok s =>
      match np_min (local_thresh s), np_max (local_thresh s) with
      | Ok mn, Ok mx => Some (BlobsFound offst (length (contours s)) mn mx)
      | _, _ => None
      end
  | Raise _ => None
  end.

End PassLog.

Section SliceSteps.
Context {SK : Skimage} {store : Type} {CO : Collaborators store}.

(** Lines 64 to 77 for a z-index whose lookup gave the handle [ix]: the frame
    of the slice that line 78 appends. *)
Definition slice_frame (image_structure : CachedImageFile store) (z ix : Z)
    : M store DataFrame :=
  img_md <- image image_structure ix ;;
  log_debug (ProcessingZ z) ;;;
  let cdir := cache_path image_structure in
  compartments <- cached_step (bags_filename img_md)
                    segment_compartments_from_holes (md_image img_md) cdir ;;
  df <- lift (loc_set_scalar (DataFrame_of_records compartments) "z" (CInt z)) ;;
  df <- simple_polygon df ;;
  concentric df.

(** A table transformation that returns well-formed frames for well-formed
    frames. *)
Definition keeps_well_formed (f : DataFrame -> M store DataFrame) : Prop :=
  forall df w df' w',
    well_formed_frame df -> f df w = (Ok df', w') -> well_formed_frame df'.

End SliceSteps.

(** A stack with two z-indices: the image of the first has two blobs, the
    image of the second has no pixels. *)
Definition stack_with_a_bad_slice : CachedImageFile cache := {|
  zstacks := [0; 1];
  ix_at := fun c z t => Some z;
  image := fun ix =>
    ret (if ix =? 0 then mk_metadata two_blobs 0 0 0 else mk_metadata no_pixels 1 0 0);
  cache_path := "cache"
|}.

(** A stack with one z-index, whose image is the white 2 x 2 square: no
    offset finds a contour in it. *)
Definition flat_stack : CachedImageFile cache := {|
  zstacks := [0];
  ix_at := fun c z t => Some 0;
  image := fun ix => ret (mk_metadata white_square 0 0 0);
  cache_path := "cache"
|}.

(* ================================================================== *)
(** * Properties *)
(* ================================================================== *)

(** ** Comparisons, results and the state monad *)

Lemma Qlt_bool_iff (a b : Q) : Qlt_bool a b = true <-> (a < b)%Q.
Proof.
  unfold Qlt_bool. rewrite negb_true_iff. split; intro H.
  - apply Qnot_le_lt. intro Hle. apply Qle_bool_iff in Hle. congruence.
  - destruct (Qle_bool b a) eqn:E; trivial.
    apply Qle_bool_iff in E. exfalso. exact (Qlt_not_le _ _ H E).
Qed.

Lemma res_bind_ok {A B : Type} (c : result A) (k : A -> result B) (b : B) :
  res_bind c k = Ok b -> exists a, c = Ok a /\ k a = Ok b.
Proof. destruct c as [a|e]; simpl; intro H; [eauto | discriminate]. Qed.

Lemma res_bind_raise {A B : Type} (c : result A) (k : A -> result B) (e : exn) :
  res_bind c k = Raise e -> c = Raise e \/ exists a, c = Ok a /\ k a = Raise e.
Proof.
  destruct c as [a|e']; simpl; intro H; [right; eauto | left; congruence].
Qed.

Lemma fst_bind_lift {store A B : Type} (c : result A) (k : A -> M store B)
    (w : world store) :
  bind (lift c) k w = match c with Ok a => k a w | Raise e => (Raise e, w) end.
Proof. unfold bind, lift. destruct c; reflexivity. Qed.

Ltac inv H := inversion H; subst; clear H.

(** ** Lists of stages *)

Lemma run_stages_app (fs gs : list (Image -> result Image)) (a : Image) :
  run_stages (fs ++ gs) a = (b <~ run_stages fs a ;; run_stages gs b).
Proof.
  revert a. induction fs as [|f fs IH]; intro a; simpl; trivial.
  destruct (f a) as [b|e]; simpl; auto.
Qed.

Lemma run_stages_raise (fs : list (Image -> result Image)) (a : Image) (e : exn) :
  run_stages fs a = Raise e <->
  exists before f after x,
    fs = before ++ f :: after /\ run_stages before a = Ok x /\ f x = Raise e.
Proof.
  split.
  - revert a. induction fs as [|f fs IH]; intro a; simpl; [discriminate|].
    destruct (f a) as [b|e'] eqn:E; simpl; intro H.
    + destruct (IH b H) as (before & g & after & x & -> & Hrun & Hg).
      exists (f :: before), g, after, x. simpl. rewrite E. simpl. auto.
    + inv H. exists [], f, fs, a. simpl. auto.
  - intros (before & f & after & x & -> & Hrun & Hf).
    rewrite run_stages_app, Hrun. simpl. rewrite Hf. reflexivity.
Qed.

Lemma run_stages_ok (fs : list (Image -> result Image)) (a b : Image) :
  run_stages fs a = Ok b ->
  forall before f after, fs = before ++ f :: after ->
    exists x y, run_stages before a = Ok x /\ f x = Ok y.
Proof.
  intros H before f after ->. rewrite run_stages_app in H.
  apply res_bind_ok in H. destruct H as (x & Hx & H). simpl in H.
  apply res_bind_ok in H. destruct H as (y & Hy & _). eauto.
Qed.

(** ** The offsets *)

Lemma sweep_offsets_eq : sweep_offsets = map Z.of_nat (seq 1 299).
Proof. vm_compute. reflexivity. Qed.

Lemma In_sweep_offsets (o : Z) : In o sweep_offsets <-> 1 <= o < 300.
Proof.
  rewrite sweep_offsets_eq, in_map_iff. split.
  - intros (n & <- & Hn). apply in_seq in Hn. lia.
  - intro H. exists (Z.to_nat o). split; [lia|]. apply in_seq. lia.
Qed.

(** ** The inner loop *)

Lemma append_contours_kept (offst : Z) (cs : list contour) (acc : list PolygonHypothesis) :
  append_contours offst cs acc = acc ++ kept_polygons offst cs.
Proof.
  revert acc. induction cs as [|c cs IH]; intro acc; simpl.
  - unfold kept_polygons. simpl. now rewrite app_nil_r.
  - unfold kept_polygons in *. simpl. destruct (length c <? 3)%nat; simpl.
    + apply IH.
    + rewrite IH, <- app_assoc. reflexivity.
Qed.

Lemma kept_polygons_vertices (offst : Z) (cs : list contour) :
  Forall (fun h => (3 <= n_vertices h)%nat /\ offset h = offst) (kept_polygons offst cs).
Proof.
  unfold kept_polygons. apply Forall_forall. intros h Hh.
  apply in_map_iff in Hh. destruct Hh as (c & <- & Hc).
  apply filter_In in Hc. destruct Hc as [_ Hc].
  apply negb_true_iff, Nat.ltb_ge in Hc.
  unfold n_vertices, fliplr. simpl. rewrite length_map. auto.
Qed.

Section SweepFacts.
Context {SK : Skimage} {store : Type}.

(** ** The value of the sweep does not depend on the world *)

Lemma sweep_body_value (entr : Image) (o : Z) (acc : list PolygonHypothesis)
    (w : world store) :
  fst (sweep_body entr o acc w)
  = (cs <~ pass_outcome entr o ;; Ok (append_contours o cs acc)).
Proof.
  unfold sweep_body, pass_outcome. rewrite fst_bind_lift.
  destruct (sweep_pass entr o) as [s|e]; simpl; trivial.
  rewrite fst_bind_lift. destruct (np_min (local_thresh s)) as [mn|e]; simpl; trivial.
  rewrite fst_bind_lift. destruct (np_max (local_thresh s)) as [mx|e]; simpl; trivial.
Qed.

Lemma sweep_loop_value (entr : Image) (os : list Z) (acc : list PolygonHypothesis)
    (w : world store) :
  fst (sweep_loop entr os acc w) = sweep_value entr os acc.
Proof.
  revert acc w. induction os as [|o os IH]; intros acc w; simpl; trivial.
  unfold bind. pose proof (sweep_body_value entr o acc w) as Hb.
  destruct (sweep_body entr o acc w) as [[a|e] w']; simpl in Hb.
  - rewrite IH. destruct (pass_outcome entr o) as [cs|e]; simpl in *; [|discriminate].
    inv Hb. reflexivity.
  - destruct (pass_outcome entr o) as [cs|e']; simpl in *; [discriminate|].
    inv Hb. reflexivity.
Qed.

Lemma sweep_value_ok (entr : Image) (os : list Z) (acc hyps : list PolygonHypothesis) :
  sweep_value entr os acc = Ok hyps ->
  hyps = acc ++ flat_map (fun o => kept_polygons o (contours_at entr o)) os
  /\ Forall (fun o => is_ok (pass_outcome entr o) = true) os.
Proof.
  revert acc. induction os as [|o os IH]; intros acc H; simpl in *.
  - inv H. rewrite app_nil_r. auto.
  - unfold contours_at. destruct (pass_outcome entr o) as [cs|e] eqn:E; simpl in H; [|discriminate].
    destruct (IH _ H) as [-> Hall]. rewrite append_contours_kept, <- app_assoc.
    split; [reflexivity|]. constructor; [now rewrite E | exact Hall].
Qed.


Lemma segment_value (img : Image) (w : world store) :
  fst (segment_compartments_from_holes img w)
  = (entr <~ entropy_texture img ;; sweep_value entr sweep_offsets []).
Proof.
  unfold segment_compartments_from_holes. rewrite fst_bind_lift.
  destruct (entropy_texture img) as [entr|e]; simpl; trivial.
  apply sweep_loop_value.
Qed.

End SweepFacts.

(* ================================================================== *)
(** ** The binary image of a pass *)
(* ================================================================== *)

Lemma img_as_bool_pixel (th : Image) (i : nat) :
  nth i (data (img_as_bool th)) false = true
  <-> (i < length (data th))%nat /\ (1 # 2 < nth i (data th) 0)%Q.
Proof.
  unfold img_as_bool. simpl. generalize (data th). intro l. revert i.
  induction l as [|v l IH]; intro i; simpl.
  - destruct i; split; try discriminate; intros [H _]; inversion H.
  - destruct i as [|i].
    + rewrite Qlt_bool_iff. split; [intro H; split; [lia | exact H] | tauto].
    + rewrite IH. split; intros [H1 H2]; (split; [lia | exact H2]).
Qed.

Section PassFacts.
Context {SK : Skimage}.

(** C1, as the code has it.  In every pass the image that is labeled and
    contoured is [img_as_bool] of the threshold map of that offset: a pixel is
    foreground iff its value in the threshold map exceeds 0.5.  The texture
    pixel is not compared with anything: two passes with the same threshold
    map label the same binary image, whatever their texture images are. *)
Theorem labeled_image_is_img_as_bool_of_threshold_map
    (entr_img : Image) (offst : Z) (s : sweep_locals) :
  sweep_pass entr_img offst = Ok s ->
  threshold_local entr_img 35 offst = Ok (local_thresh s)
  /\ binary_local s = img_as_bool (local_thresh s)
  /\ label (binary_local s) = Ok (label_image s)
  /\ find_contours (label_image s) (9 # 10) = Ok (contours s)
  /\ (forall i, nth i (data (binary_local s)) false = true
                <-> (i < length (data (local_thresh s)))%nat
                    /\ (1 # 2 < nth i (data (local_thresh s)) 0)%Q)
  /\ (forall entr_img' offst' s',
        sweep_pass entr_img' offst' = Ok s' ->
        local_thresh s' = local_thresh s -> binary_local s' = binary_local s).
Proof.
  unfold sweep_pass. intro H.
  destruct (threshold_local entr_img 35 offst) as [th|e] eqn:Eth; simpl in H; [|discriminate].
  destruct (label (img_as_bool th)) as [lbl|e] eqn:El; simpl in H; [|discriminate].
  destruct (find_contours lbl (9 # 10)) as [cs|e] eqn:Ec; simpl in H; [|discriminate].
  inv H. simpl. do 4 (split; [trivial|]). split.
  - apply img_as_bool_pixel.
  - intros entr' offst' s' H' Heq.
    destruct (threshold_local entr' 35 offst') as [th'|e]; simpl in H'; [|discriminate].
    destruct (label (img_as_bool th')) as [lbl'|e]; simpl in H'; [|discriminate].
    destruct (find_contours lbl' (9 # 10)) as [cs'|e]; simpl in H'; [|discriminate].
    inv H'. simpl in *. now subst.
Qed.

(* ================================================================== *)
(** ** The errors of the texture computation *)
(* ================================================================== *)

Lemma entropy_texture_stages (img : Image) :
  entropy_texture img = run_stages texture_stages img.
Proof.
  unfold entropy_texture, texture_stages. simpl.
  repeat match goal with
         | |- res_bind ?c _ = res_bind ?c _ => destruct c; simpl; trivial
         end.
  destruct (disk 30); simpl; trivial.
  repeat match goal with
         | |- res_bind ?c _ = res_bind ?c _ => destruct c; simpl; trivial
         end.
  destruct (invert _); reflexivity.
Qed.

(** C6, as the code has it.  The texture computation checks nothing itself
    and raises nothing of its own: it raises [e] exactly when one of the
    library calls of lines 24 to 29, run on what the calls before it returned,
    raises [e]; and when it returns, every one of those calls returned. *)
Theorem entropy_texture_raises_what_a_library_call_raises (img : Image) :
  (forall e,
      entropy_texture img = Raise e
      <-> exists before f after x,
            texture_stages = before ++ f :: after
            /\ run_stages before img = Ok x /\ f x = Raise e)
  /\ (forall out before f after,
        entropy_texture img = Ok out ->
        texture_stages = before ++ f :: after ->
        exists x y, run_stages before img = Ok x /\ f x = Ok y).
Proof.
  split.
  - intro e. rewrite entropy_texture_stages. apply run_stages_raise.
  - intros out before f after H Hsplit. rewrite entropy_texture_stages in H.
    exact (run_stages_ok _ _ _ H _ _ _ Hsplit).
Qed.

End PassFacts.

(** C1 at a concrete input: the 2 x 2 texture image of value 255 at offset
    255, which the sweep reaches (no pass raises on this image).  The
    threshold map is 0 everywhere, so the labeled image is all background,
    while every texture value 255 exceeds its threshold 0. *)
Lemma labeled_image_differs_from_binarized_texture :
  In 255 sweep_offsets
  /\ fst (threshold_sweep (SK := skimage_standin) white_square fresh_world) = Ok []
  /\ exists s,
       sweep_pass (SK := skimage_standin) white_square 255 = Ok s
       /\ data (binary_local s) = [false; false; false; false]
       /\ data (binarize_against white_square (local_thresh s))
          = [true; true; true; true].
Proof.
  split; [apply In_sweep_offsets; lia|].
  split; [vm_compute; reflexivity|].
  eexists. split; [reflexivity|]. split; reflexivity.
Qed.

(** A pass on the same image at offset 1: the threshold map is 254
    everywhere, all of it above 0.5, so the whole image is the foreground that
    is labeled, one component without a contour. *)
Lemma labeled_image_is_img_as_bool_witness :
  sweep_pass (SK := skimage_standin) white_square 1
  = Ok (mk_locals
          (mk_ndarray [2; 2]%nat [254; 254; 254; 254]%Q)
          (mk_ndarray [2; 2]%nat [true; true; true; true])
          (mk_ndarray [2; 2]%nat [1; 1; 1; 1])
          [])
  /\ label (Skimage := skimage_standin)
       (img_as_bool (mk_ndarray [2; 2]%nat [254; 254; 254; 254]%Q))
     = Ok (mk_ndarray [2; 2]%nat [1; 1; 1; 1]).
Proof.
  split; [reflexivity|].
  pose proof (labeled_image_is_img_as_bool_of_threshold_map
                (SK := skimage_standin) white_square 1 _ eq_refl) as H.
  destruct H as (_ & Hbin & Hlbl & _). simpl in Hbin, Hlbl. exact Hlbl.
Defined.

(** C6 at a concrete input: an image without pixels.  The first library
    call, [rescale_intensity], raises numpy's [ValueError]; that is what the
    texture computation raises. *)
Lemma entropy_texture_of_no_pixels_raises_ValueError :
  ~ well_formed_image no_pixels
  /\ exists e,
       entropy_texture (SK := skimage_standin) no_pixels = Raise e
       /\ exn_class e = "ValueError"
       /\ exn_class e <> InvalidImageError_class.
Proof.
  split; [intros [_ H]; now apply H|]. eexists. split; [reflexivity|].
  split; [reflexivity | discriminate].
Qed.

(** The same run, read through the stages: the call that raised is the first
    of them, on the image as it was given. *)
Lemma entropy_texture_raises_witness :
  exists before f after x,
    texture_stages (SK := skimage_standin) = before ++ f :: after
    /\ run_stages before no_pixels = Ok x
    /\ f x = Raise (ValueError "zero-size array to reduction operation minimum which has no identity").
Proof.
  apply (proj1 (entropy_texture_raises_what_a_library_call_raises
                  (SK := skimage_standin) no_pixels)).
  reflexivity.
Defined.

(* ================================================================== *)
(** ** The sweep *)
(* ================================================================== *)


Section SegmenterFacts.
Context {SK : Skimage} {store : Type}.


(** C3.  The sweep visits the offsets 1, 2, ..., 299 in this order.  When the
    segmenter returns, the pass of every one of them has run, and what is
    returned is, offset after offset, every contour of at least three vertices
    found at that offset, as a polygon tagged with that offset: nothing is
    merged or left out across offsets, and every offset field lies in
    [1, 299]. *)
Theorem sweep_covers_offsets_1_to_299 (img : Image) (w : world store)
    (hyps : list PolygonHypothesis) :
  fst (segment_compartments_from_holes img w) = Ok hyps ->
  sweep_offsets = map Z.of_nat (seq 1 299)
  /\ (forall o, In o sweep_offsets <-> 1 <= o < 300)
  /\ exists entr_img,
       entropy_texture img = Ok entr_img
       /\ Forall (fun o => is_ok (pass_outcome entr_img o) = true) sweep_offsets
       /\ hyps = flat_map (fun o => kept_polygons o (contours_at entr_img o)) sweep_offsets
       /\ length hyps
          = list_sum (map (fun o => length (kept_polygons o (contours_at entr_img o)))
                        sweep_offsets)
       /\ Forall (fun h => 1 <= offset h <= 299) hyps.
Proof.
  rewrite segment_value. intro H.
  split; [exact sweep_offsets_eq|]. split; [exact In_sweep_offsets|].
  apply res_bind_ok in H. destruct H as (entr & Hentr & H).
  exists entr. split; [exact Hentr|].
  apply sweep_value_ok in H. destruct H as [-> Hall]. cbn [app].
  split; [exact Hall|]. split; [reflexivity|]. split.
  - apply length_flat_map.
  - apply Forall_forall. intros h Hh. apply in_flat_map in Hh.
    destruct Hh as (o & Ho & Hh). apply In_sweep_offsets in Ho.
    pose proof (kept_polygons_vertices o (contours_at entr o)) as Hk.
    rewrite Forall_forall in Hk. destruct (Hk _ Hh) as [_ ->]. lia.
Qed.

(** C4.  A contour of fewer than three vertices adds no record and raises
    nothing, whatever follows it; and every hypothesis the segmenter returns
    has a boundary of at least three vertices. *)
Theorem returned_boundaries_have_three_vertices :
  (forall offst contr rest acc,
      (length contr < 3)%nat ->
      append_contours offst (contr :: rest) acc = append_contours offst rest acc)
  /\ (forall img (w : world store) hyps,
        fst (segment_compartments_from_holes img w) = Ok hyps ->
        Forall (fun h => (3 <= n_vertices h)%nat) hyps).
Proof.
  split.
  - intros offst contr rest acc Hlen. simpl.
    apply Nat.ltb_lt in Hlen. now rewrite Hlen.
  - intros img w hyps H. rewrite segment_value in H.
    apply res_bind_ok in H. destruct H as (entr & _ & H).
    apply sweep_value_ok in H. destruct H as [-> _]. cbn [app].
    apply Forall_forall. intros h Hh. apply in_flat_map in Hh.
    destruct Hh as (o & _ & Hh).
    pose proof (kept_polygons_vertices o (contours_at entr o)) as Hk.
    rewrite Forall_forall in Hk. now destruct (Hk _ Hh).
Qed.

End SegmenterFacts.



(** The segmenter on the two-blob image: the diamond is found at the offsets
    1 to 199 and returned 199 times, once per offset. *)
Lemma sweep_covers_offsets_witness :
  fst (segment_compartments_from_holes (SK := skimage_standin) two_blobs fresh_world)
  = Ok two_blobs_hypotheses
  /\ Forall (fun h => 1 <= offset h <= 299) two_blobs_hypotheses.
Proof.
  assert (H : fst (segment_compartments_from_holes (SK := skimage_standin)
                     two_blobs fresh_world) = Ok two_blobs_hypotheses)
    by (vm_compute; reflexivity).
  split; [exact H|].
  destruct (sweep_covers_offsets_1_to_299 (SK := skimage_standin) _ _ _ H)
    as (_ & _ & entr & _ & _ & _ & _ & Hrange).
  exact Hrange.
Defined.

(** On the same image the two-vertex contour of the corner is found at the
    offsets 1 to 199 and never returned. *)
Lemma returned_boundaries_witness :
  (length corner_contour < 3)%nat
  /\ fst (segment_compartments_from_holes (SK := skimage_standin) two_blobs fresh_world)
     = Ok two_blobs_hypotheses
  /\ Forall (fun h => (3 <= n_vertices h)%nat) two_blobs_hypotheses.
Proof.
  assert (H : fst (segment_compartments_from_holes (SK := skimage_standin)
                     two_blobs fresh_world) = Ok two_blobs_hypotheses)
    by (vm_compute; reflexivity).
  split; [simpl; lia|]. split; [exact H|].
  exact (proj2 (returned_boundaries_have_three_vertices (SK := skimage_standin))
           _ _ _ H).
Defined.

(* ================================================================== *)
(** ** Columns *)
(* ================================================================== *)

Lemma lookup_column_mem (name : string) (cols : list (string * list cell)) :
  lookup_column name cols = None <-> mem_string name (map fst cols) = false.
Proof.
  unfold mem_string. induction cols as [|[n vs] cols IH]; simpl; [tauto|].
  rewrite (String.eqb_sym n name). destruct (String.eqb name n); simpl; [|exact IH].
  split; discriminate.
Qed.

Lemma lookup_column_In (name : string) (cols : list (string * list cell)) (vs : list cell) :
  lookup_column name cols = Some vs -> In (name, vs) cols.
Proof.
  induction cols as [|[n old] cols IH]; simpl; [discriminate|].
  destruct (String.eqb n name) eqn:E; intro H.
  - apply String.eqb_eq in E. inv H. now left.
  - right. auto.
Qed.

Lemma lookup_set_column_same (name : string) (vs : list cell)
    (cols : list (string * list cell)) :
  lookup_column name (set_column name vs cols) = Some vs.
Proof.
  induction cols as [|[n old] cols IH]; simpl.
  - now rewrite String.eqb_refl.
  - destruct (String.eqb n name) eqn:E; simpl; rewrite E; auto.
Qed.

Lemma lookup_set_column_other (name other : string) (vs : list cell)
    (cols : list (string * list cell)) :
  other <> name ->
  lookup_column other (set_column name vs cols) = lookup_column other cols.
Proof.
  intro Hne. induction cols as [|[n old] cols IH]; simpl.
  - destruct (String.eqb name other) eqn:E; trivial.
    apply String.eqb_eq in E. congruence.
  - destruct (String.eqb n name) eqn:E; simpl.
    + apply String.eqb_eq in E. subst n.
      destruct (String.eqb name other) eqn:E'; trivial.
      apply String.eqb_eq in E'. congruence.
    + now rewrite IH.
Qed.

Lemma set_column_absent (name : string) (vs : list cell)
    (cols : list (string * list cell)) :
  lookup_column name cols = None -> set_column name vs cols = cols ++ [(name, vs)].
Proof.
  induction cols as [|[n old] cols IH]; simpl; trivial.
  destruct (String.eqb n name); [discriminate|]. intro H. now rewrite IH.
Qed.

Lemma set_column_present_names (name : string) (vs old : list cell)
    (cols : list (string * list cell)) :
  lookup_column name cols = Some old ->
  map fst (set_column name vs cols) = map fst cols.
Proof.
  induction cols as [|[n o] cols IH]; simpl; [discriminate|].
  destruct (String.eqb n name); simpl; trivial. intro H. now rewrite IH.
Qed.

Lemma lookup_column_tabulate (name : string) (g : string -> list cell)
    (names : list string) :
  lookup_column name (map (fun n => (n, g n)) names)
  = if mem_string name names then Some (g name) else None.
Proof.
  unfold mem_string. induction names as [|n names IH]; simpl; trivial.
  rewrite (String.eqb_sym name n). destruct (String.eqb n name) eqn:E; simpl; trivial.
  apply String.eqb_eq in E. now subst.
Qed.

Lemma col_or_nan_append (name : string) (out df : DataFrame) :
  col_or_nan name (append out df) = col_or_nan name out ++ col_or_nan name df.
Proof.
  unfold col_or_nan at 1. unfold append. cbn [columns index nrows].
  rewrite lookup_column_tabulate.
  destruct (mem_string name _) eqn:E; trivial.
  unfold mem_string in E. rewrite existsb_app in E. apply orb_false_iff in E.
  destruct E as [Eout Edf].
  assert (Hout : lookup_column name (columns out) = None)
    by now apply lookup_column_mem.
  assert (Hdf : lookup_column name (columns df) = None).
  { apply lookup_column_mem. unfold mem_string.
    destruct (existsb (String.eqb name) (map fst (columns df))) eqn:E'; trivial.
    apply existsb_exists in E'. destruct E' as (n & Hn & Heq).
    apply String.eqb_eq in Heq. subst n.
    assert (Hin : In name (filter (fun n => negb (mem_string n (column_names out)))
                             (column_names df))).
    { apply filter_In. split; [exact Hn|]. unfold mem_string. now rewrite Eout. }
    assert (Hex : existsb (String.eqb name)
                    (filter (fun n => negb (mem_string n (column_names out)))
                       (column_names df)) = true).
    { apply existsb_exists. exists name. split; [exact Hin | apply String.eqb_refl]. }
    unfold mem_string in Hex. congruence. }
  unfold col_or_nan, nrows. rewrite Hout, Hdf. cbn [index].
  rewrite length_app. apply repeat_app.
Qed.

Lemma loc_set_scalar_column (df df' : DataFrame) (name : string) (v : cell) :
  loc_set_scalar df name v = Ok df' ->
  col_or_nan name df' = repeat v (nrows df).
Proof.
  unfold loc_set_scalar, col_or_nan. intro H.
  destruct (has_column name df); [|destruct (nrows df =? 0)%nat; [discriminate|]];
    inv H; simpl; now rewrite lookup_set_column_same.
Qed.

(* ================================================================== *)
(** ** The stack driver *)
(* ================================================================== *)


Section ZStackFacts.
Context {SK : Skimage} {store : Type} {CO : Collaborators store}.


Lemma zstack_loop_skips (s : CachedImageFile store) (channel frame : Z) (zs : list Z) :
  forall out w,
    zstack_loop s channel frame zs out w
    = zstack_loop s channel frame (filter (has_image s channel frame) zs) out w.
Proof.
  induction zs as [|z zs IH]; intros out w; simpl; trivial.
  unfold has_image at 1.
  destruct (ix_at s channel z frame) as [ix|] eqn:E; simpl; [|apply IH].
  rewrite E. unfold bind.
  destruct (image s ix w) as [[md|e] w1]; trivial.
  destruct (log_debug (ProcessingZ z) w1) as [[u|e] w2]; trivial.
  destruct (cached_step _ _ _ _ w2) as [[comps|e] w3]; trivial.
  destruct (lift (loc_set_scalar _ _ _) w3) as [[df|e] w4]; trivial.
  destruct (simple_polygon df w4) as [[df1|e] w5]; trivial.
  destruct (concentric df1 w5) as [[df2|e] w6]; trivial.
Qed.

Lemma zstack_loop_z_cells (s : CachedImageFile store) (channel frame : Z) :
  keeps_z simple_polygon -> keeps_z concentric ->
  forall zs out w table,
    incl zs (zstacks s) ->
    Forall (z_of_a_slice s channel frame) (col_or_nan "z" out) ->
    fst (zstack_loop s channel frame zs out w) = Ok table ->
    Forall (z_of_a_slice s channel frame) (col_or_nan "z" table).
Proof.
  intros Hsp Hco. induction zs as [|z zs IH]; intros out w table Hzs Hout H; simpl in H.
  - now inv H.
  - assert (Hzs' : incl zs (zstacks s)) by (intros x Hx; apply Hzs; now right).
    destruct (ix_at s channel z frame) as [ix|] eqn:E; [|now apply (IH out w)].
    unfold bind in H.
    destruct (image s ix w) as [[md|e] w1]; [|discriminate].
    destruct (log_debug (ProcessingZ z) w1) as [[u|e] w2]; [|discriminate].
    destruct (cached_step _ _ _ _ w2) as [[comps|e] w3]; [|discriminate].
    unfold lift in H.
    destruct (loc_set_scalar (DataFrame_of_records comps) "z" (CInt z))
      as [df|e] eqn:Eset; [|discriminate].
    destruct (simple_polygon df w3) as [[df1|e] w5] eqn:E1; [|discriminate].
    destruct (concentric df1 w5) as [[df2|e] w6] eqn:E2; [|discriminate].
    apply (IH (append out df2) w6); trivial.
    rewrite col_or_nan_append. apply Forall_app. split; [exact Hout|].
    apply Forall_forall. intros c Hc.
    apply (Hco _ _ _ _ E2), (Hsp _ _ _ _ E1) in Hc.
    rewrite (loc_set_scalar_column _ _ _ _ Eset) in Hc.
    apply repeat_spec in Hc. subst c. exists z. split; [reflexivity|].
    split; [apply Hzs; now left|]. unfold has_image. now rewrite E.
Qed.

(** C7.  A z-index whose lookup yields no image takes no part in the run: the
    loop over a list of z-indices is the loop over those of them that have an
    image, and nothing is raised for the others.  When the two table
    transformations of the pipe invent no z value, every cell of the z column
    of the returned table is a declared z-index that has an image; so when a
    single z-index of the stack has one, the column holds that value only. *)
Theorem slices_without_image_are_skipped
    (s : CachedImageFile store) (channel frame : Z) :
  (forall zs out w,
      zstack_loop s channel frame zs out w
      = zstack_loop s channel frame (filter (has_image s channel frame) zs) out w)
  /\ (forall z rest out w,
        ix_at s channel z frame = None ->
        zstack_loop s channel frame (z :: rest) out w
        = zstack_loop s channel frame rest out w)
  /\ (keeps_z simple_polygon -> keeps_z concentric ->
      forall w table,
        fst (segment_zstack s channel frame w) = Ok table ->
        Forall (z_of_a_slice s channel frame) (z_column table)
        /\ forall z0,
             (forall z, In z (zstacks s) -> has_image s channel frame z = true -> z = z0) ->
             Forall (eq (CInt z0)) (z_column table)).
Proof.
  split; [apply zstack_loop_skips|]. split.
  - intros z rest out w E. simpl. now rewrite E.
  - intros Hsp Hco w table H.
    assert (Hall : Forall (z_of_a_slice s channel frame) (z_column table)).
    { unfold segment_zstack, bind in H.
      destruct (zstack_loop s channel frame (zstacks s) empty_frame w)
        as [[out|e] w'] eqn:Eloop; [|discriminate].
      simpl in H. inv H.
      assert (Hout : Forall (z_of_a_slice s channel frame) (col_or_nan "z" out)).
      { apply (zstack_loop_z_cells s channel frame Hsp Hco
                 (zstacks s) empty_frame w out).
        - apply incl_refl.
        - constructor.
        - now rewrite Eloop. }
      unfold z_column, reset_index_drop. cbn [columns].
      unfold col_or_nan in Hout.
      destruct (lookup_column "z" (columns out)); [exact Hout | constructor]. }
    split; [exact Hall|]. intros z0 Hone.
    apply Forall_forall. intros c Hc. rewrite Forall_forall in Hall.
    destruct (Hall c Hc) as (z & -> & Hin & Himg).
    now rewrite (Hone z Hin Himg).
Qed.

End ZStackFacts.

Lemma keeps_z_ret {store : Type} : keeps_z (store := store) (fun df => ret df).
Proof. intros df w df' w' H. inv H. apply incl_refl. Qed.

(** The stack with five declared z-indices and one image, at z = 2. *)
Lemma slices_without_image_witness :
  fst (segment_zstack (SK := skimage_standin) (CO := collaborators_standin)
         sparse_stack 0 0 fresh_world)
  = Ok sparse_stack_table
  /\ Forall (eq (CInt 2)) (z_column sparse_stack_table).
Proof.
  assert (H : fst (segment_zstack (SK := skimage_standin) (CO := collaborators_standin)
                     sparse_stack 0 0 fresh_world) = Ok sparse_stack_table)
    by (vm_compute; reflexivity).
  split; [exact H|].
  refine (proj2 (proj2 (proj2 (slices_without_image_are_skipped
                                 (SK := skimage_standin) (CO := collaborators_standin)
                                 sparse_stack 0 0))
                   keeps_z_ret keeps_z_ret fresh_world sparse_stack_table H) 2 _).
  intros z Hin Himg. simpl in Hin.
  destruct Hin as [<-|[<-|[<-|[<-|[<-|[]]]]]]; try reflexivity; discriminate Himg.
Defined.

(* ================================================================== *)
(** ** Clustering *)
(* ================================================================== *)

Section ClusteringFacts.
Context {SL : Sklearn}.

Lemma cluster_by_centroid_steps (df : DataFrame) (eps : Q) (min_samples : Z) :
  cluster_by_centroid df eps min_samples
  = (X <~ standardized_centroids df ;;
     labels <~ DBSCAN_fit_labels eps min_samples X ;;
     assign df "cluster" (map CInt labels)).
Proof.
  unfold cluster_by_centroid, standardized_centroids.
  destruct (getitem df "boundary") as [col|e]; simpl; trivial.
  destruct (series_apply centroid_of_cell col) as [X|e]; simpl; trivial.
Qed.


(** C9, as the code has it.  When clustering returns, the returned table has
    the row labels of the input in the same order, a cluster column that holds
    the labels DBSCAN returned, one per row in row order, and every column of
    another name as it was.  On a table without a cluster column the columns
    are those of the input followed by the new one; on a table that has one,
    that column is overwritten and none is added.  The labels are integers
    from -1 whenever DBSCAN's are. *)
Theorem cluster_column_is_written (df df' : DataFrame) (eps : Q) (min_samples : Z) :
  cluster_by_centroid df eps min_samples = Ok df' ->
  exists X labels,
    standardized_centroids df = Ok X
    /\ DBSCAN_fit_labels eps min_samples X = Ok labels
    /\ length labels = nrows df
    /\ index df' = index df
    /\ lookup_column "cluster" (columns df') = Some (map CInt labels)
    /\ (forall name, name <> "cluster" ->
          lookup_column name (columns df') = lookup_column name (columns df))
    /\ (has_column "cluster" df = false ->
          columns df' = columns df ++ [("cluster", map CInt labels)])
    /\ (has_column "cluster" df = true -> column_names df' = column_names df)
    /\ (labels_in_range -> Forall (fun l => -1 <= l) labels).
Proof.
  rewrite cluster_by_centroid_steps. intro H.
  apply res_bind_ok in H. destruct H as (X & HX & H).
  apply res_bind_ok in H. destruct H as (labels & Hl & H).
  exists X, labels. split; [exact HX|]. split; [exact Hl|].
  unfold assign in H. rewrite length_map in H.
  destruct (length labels =? nrows df)%nat eqn:E; [|discriminate].
  apply Nat.eqb_eq in E. inv H. cbn [index columns].
  split; [exact E|]. split; [reflexivity|].
  split; [apply lookup_set_column_same|].
  split; [intros name Hne; now apply lookup_set_column_other|].
  unfold has_column, column_names. cbn [columns].
  destruct (lookup_column "cluster" (columns df)) as [old|] eqn:Eold.
  - split; [discriminate|]. split.
    + intros _. exact (set_column_present_names _ _ _ _ Eold).
    + intro Hc. exact (Hc _ _ _ _ Hl).
  - split; [intros _; now apply set_column_absent|]. split; [discriminate|].
    intro Hc. exact (Hc _ _ _ _ Hl).
Qed.

(** C10.  On a table without rows the call raises, given that feature
    standardization rejects an empty sample set: the boundary column, when
    there is one, has no cell, so the scaler is handed no sample. *)
Theorem clustering_without_rows_raises (df : DataFrame) (eps : Q) (min_samples : Z) :
  well_formed_frame df ->
  nrows df = 0%nat ->
  (exists e, StandardScaler_fit_transform [] = Raise e) ->
  exists e, cluster_by_centroid df eps min_samples = Raise e.
Proof.
  intros Hwf Hrows [e He]. unfold cluster_by_centroid, getitem.
  destruct (lookup_column "boundary" (columns df)) as [col|] eqn:E; simpl.
  - apply lookup_column_In in E. unfold well_formed_frame in Hwf.
    rewrite Forall_forall in Hwf. specialize (Hwf _ E). simpl in Hwf.
    rewrite Hrows in Hwf. apply length_zero_iff_nil in Hwf. subst col.
    simpl. rewrite He. simpl. eauto.
  - eauto.
Qed.

End ClusteringFacts.


(** C9 at a concrete input: a table that already has a cluster column.  The
    call returns as many columns as it was given, and the label 7 of the
    column that was there is replaced by -1. *)
Lemma clustering_overwrites_a_cluster_column :
  lookup_column "cluster" (columns clustered_table) = Some [CInt 7]
  /\ cluster_by_centroid (SL := sklearn_standin) clustered_table
       default_eps default_min_samples
     = Ok (mk_DataFrame [0]
             [("offset", [CInt 1]); ("boundary", [CPolygon triangle]);
              ("cluster", [CInt (-1)])])
  /\ column_names clustered_table = ["offset"; "boundary"; "cluster"].
Proof. repeat split. Qed.

Lemma labels_in_range_standin : labels_in_range (SL := sklearn_standin).
Proof.
  intros eps ms X labels. simpl. unfold dbscan_standin.
  destruct (Qle_bool eps 0); [discriminate|].
  destruct (ms <? 1); [discriminate|].
  destruct X as [|p X]; [discriminate|].
  generalize (p :: X). intro Y.
  destruct (Z.of_nat (length Y) <? ms); intro H; inv H;
    apply Forall_forall; intros l Hl; apply in_map_iff in Hl;
    destruct Hl as (_ & <- & _); lia.
Qed.

(** Two rows with the same triangle and [min_samples = 2]: one cluster. *)
Lemma cluster_column_is_written_witness :
  cluster_by_centroid (SL := sklearn_standin) two_row_table default_eps 2
  = Ok (mk_DataFrame [0; 1]
          (columns two_row_table ++ [("cluster", [CInt 0; CInt 0])]))
  /\ exists labels,
       DBSCAN_fit_labels (Sklearn := sklearn_standin) default_eps 2 [(0, 0); (0, 0)]%Q
       = Ok labels
       /\ Forall (fun l => -1 <= l) labels.
Proof.
  split; [reflexivity|].
  destruct (cluster_column_is_written (SL := sklearn_standin) two_row_table _
              default_eps 2 eq_refl)
    as (X & labels & HX & Hl & _ & _ & _ & _ & _ & _ & Hrange).
  exists labels. split.
  - vm_compute in HX. inv HX. exact Hl.
  - exact (Hrange labels_in_range_standin).
Defined.

(** The polygon table without rows. *)
Lemma clustering_without_rows_witness :
  well_formed_frame zero_row_table
  /\ nrows zero_row_table = 0%nat
  /\ exists e, cluster_by_centroid (SL := sklearn_standin) zero_row_table
                 default_eps default_min_samples = Raise e.
Proof.
  assert (Hwf : well_formed_frame zero_row_table) by (repeat constructor).
  split; [exact Hwf|]. split; [reflexivity|].
  apply (clustering_without_rows_raises (SL := sklearn_standin) zero_row_table
           default_eps default_min_samples Hwf eq_refl).
  eexists. reflexivity.
Defined.


(* ================================================================== *)
(** * Further properties of the segmenter *)
(* ================================================================== *)

Lemma kept_polygons_origin (offst : Z) (cs : list contour) (h : PolygonHypothesis) :
  In h (kept_polygons offst cs) ->
  offset h = offst
  /\ exists contr,
       In contr cs /\ (3 <= length contr)%nat
       /\ shell (boundary h) = fliplr contr.
Proof.
  unfold kept_polygons. intro Hh. apply in_map_iff in Hh.
  destruct Hh as (c & <- & Hc). apply filter_In in Hc. destruct Hc as [Hin Hlen].
  apply negb_true_iff, Nat.ltb_ge in Hlen. simpl. eauto.
Qed.

Lemma StronglySorted_app_le (l l' : list Z) :
  StronglySorted Z.le l -> StronglySorted Z.le l' ->
  (forall a b, In a l -> In b l' -> a <= b) ->
  StronglySorted Z.le (l ++ l').
Proof.
  intros Hl Hl' Hcross. induction Hl as [|a l Hl IH Ha]; simpl; trivial.
  constructor.
  - apply IH. intros x y Hx Hy. apply Hcross; [now right | exact Hy].
  - apply Forall_app. split; [exact Ha|].
    apply Forall_forall. intros b Hb. apply Hcross; [now left | exact Hb].
Qed.

Lemma StronglySorted_constant (o : Z) (l : list Z) :
  Forall (eq o) l -> StronglySorted Z.le l.
Proof.
  induction 1 as [|a l Ha Hl IH]; constructor; trivial.
  subst a. apply Forall_forall. intros b Hb.
  rewrite Forall_forall in Hl. rewrite <- (Hl b Hb). lia.
Qed.

Lemma StronglySorted_seq (a n : nat) :
  StronglySorted Z.le (map Z.of_nat (seq a n)).
Proof.
  revert a. induction n as [|n IH]; intro a; simpl; constructor.
  - apply IH.
  - apply Forall_forall. intros b Hb. apply in_map_iff in Hb.
    destruct Hb as (k & <- & Hk). apply in_seq in Hk. lia.
Qed.

Lemma flat_map_kept_sorted (f : Z -> list contour) (os : list Z) :
  StronglySorted Z.le os ->
  StronglySorted Z.le (map offset (flat_map (fun o => kept_polygons o (f o)) os)).
Proof.
  induction 1 as [|o os Hos IH Ho]; simpl; [constructor|].
  rewrite map_app. apply StronglySorted_app_le; trivial.
  - apply (StronglySorted_constant o). apply Forall_forall. intros x Hx.
    apply in_map_iff in Hx. destruct Hx as (h & <- & Hh).
    apply kept_polygons_origin in Hh. now destruct Hh as [-> _].
  - intros a b Ha Hb.
    apply in_map_iff in Ha. destruct Ha as (h & <- & Hh).
    apply kept_polygons_origin in Hh. destruct Hh as [-> _].
    apply in_map_iff in Hb. destruct Hb as (h' & <- & Hh').
    apply in_flat_map in Hh'. destruct Hh' as (o' & Ho' & Hh').
    apply kept_polygons_origin in Hh'. destruct Hh' as [-> _].
    rewrite Forall_forall in Ho. now apply Ho.
Qed.

Lemma map_Some_logged_offset {SK : Skimage} (entr : Image) (os : list Z)
    (entries : list log_msg) :
  map Some entries = map (pass_log_entry entr) os ->
  map logged_offset entries = map Some os.
Proof.
  revert os. induction entries as [|m entries IH]; intros [|o os] H; simpl in *;
    try discriminate; trivial.
  injection H as Hm H. rewrite (IH _ H). f_equal.
  unfold pass_log_entry in Hm.
  destruct (sweep_pass entr o) as [s|e]; [|discriminate].
  destruct (np_min (local_thresh s)); [|discriminate].
  destruct (np_max (local_thresh s)); [|discriminate].
  now inv Hm.
Qed.

Section SegmenterFurther.
Context {SK : Skimage} {store : Type}.

Lemma sweep_body_run (entr : Image) (o : Z) (acc : list PolygonHypothesis)
    (w : world store) :
  (exists cs m,
      pass_outcome entr o = Ok cs /\ pass_log_entry entr o = Some m
      /\ sweep_body entr o acc w
         = (Ok (append_contours o cs acc), mk_world (log w ++ [m]) (disk_store w)))
  \/ (exists e,
        pass_outcome entr o = Raise e /\ pass_log_entry entr o = None
        /\ sweep_body entr o acc w = (Raise e, w)).
Proof.
  unfold sweep_body, pass_outcome, pass_log_entry. rewrite fst_bind_lift.
  destruct (sweep_pass entr o) as [s|e]; simpl; [|right; eauto].
  rewrite fst_bind_lift.
  destruct (np_min (local_thresh s)) as [mn|e]; simpl; [|right; eauto].
  rewrite fst_bind_lift.
  destruct (np_max (local_thresh s)) as [mx|e]; simpl; [|right; eauto].
  left. eexists. eexists. repeat split.
Qed.

Lemma sweep_loop_log (entr : Image) (os : list Z) :
  forall acc (w : world store),
    exists entries,
      log (snd (sweep_loop entr os acc w)) = log w ++ entries
      /\ map Some entries = map (pass_log_entry entr) (firstn (length entries) os)
      /\ Forall (fun o => is_ok (pass_outcome entr o) = true)
           (firstn (length entries) os)
      /\ match fst (sweep_loop entr os acc w) with
         | Ok _ => length entries = length os
         | Raise e =>
             exists o,
               nth_error os (length entries) = Some o /\ pass_outcome entr o = Raise e
         end.
Proof.
  induction os as [|o os IH]; intros acc w; simpl.
  - exists []. rewrite app_nil_r. simpl. auto.
  - unfold bind.
    destruct (sweep_body_run entr o acc w)
      as [(cs & m & Hcs & Hm & ->) | (e & He & _ & ->)].
    + destruct (IH (append_contours o cs acc)
                  (mk_world (log w ++ [m]) (disk_store w)))
        as (entries & Hlog & Hmap & Hok & Hend).
      exists (m :: entries). simpl in *.
      rewrite Hlog, <- app_assoc. split; [reflexivity|].
      split; [now rewrite Hm, Hmap|].
      split; [constructor; [now rewrite Hcs | exact Hok]|].
      destruct (fst (sweep_loop entr os (append_contours o cs acc)
                       (mk_world (log w ++ [m]) (disk_store w))));
        [now rewrite Hend | exact Hend].
    + exists []. simpl. rewrite app_nil_r.
      split; [reflexivity|]. split; [reflexivity|]. split; [constructor|].
      exists o. auto.
Qed.

(** The returned list is in the order of the sweep: the offsets of its
    hypotheses never decrease along the list. *)
Theorem hypotheses_are_ordered_by_offset (img : Image) (w : world store)
    (hyps : list PolygonHypothesis) :
  fst (segment_compartments_from_holes img w) = Ok hyps ->
  StronglySorted Z.le (map offset hyps).
Proof.
  rewrite segment_value. intro H.
  apply res_bind_ok in H. destruct H as (entr & _ & H).
  apply sweep_value_ok in H. destruct H as [-> _]. cbn [app].
  apply flat_map_kept_sorted. rewrite sweep_offsets_eq. apply StronglySorted_seq.
Qed.

(** What a sweep adds to the log: one record per pass that ran to its log
    line, in the order of the offsets, each with the number of contours found
    at that offset (the dropped ones included); nothing else, and nothing is
    taken back.  A sweep that returns has logged all 299 passes.  A sweep that
    raises [e] has logged exactly the passes before the first offset whose
    pass raises, and that pass raised [e]. *)
Theorem sweep_logs_each_completed_pass (entr_img : Image) (w : world store) :
  exists entries,
    log (snd (threshold_sweep entr_img w)) = log w ++ entries
    /\ map Some entries
       = map (pass_log_entry entr_img) (firstn (length entries) sweep_offsets)
    /\ map logged_offset entries = map Some (firstn (length entries) sweep_offsets)
    /\ Forall (fun o => is_ok (pass_outcome entr_img o) = true)
         (firstn (length entries) sweep_offsets)
    /\ match fst (threshold_sweep entr_img w) with
       | Ok _ => length entries = 299%nat
       | Raise e =>
           (length entries < 299)%nat
           /\ exists o,
                nth_error sweep_offsets (length entries) = Some o
                /\ pass_outcome entr_img o = Raise e
       end.
Proof.
  unfold threshold_sweep.
  destruct (sweep_loop_log entr_img sweep_offsets [] w)
    as (entries & Hlog & Hmap & Hok & Hend).
  exists entries. split; [exact Hlog|]. split; [exact Hmap|].
  split; [exact (map_Some_logged_offset entr_img _ _ Hmap)|].
  split; [exact Hok|].
  destruct (fst (sweep_loop entr_img sweep_offsets [] w)) as [hyps|e].
  - exact Hend.
  - destruct Hend as (o & Hnth & Ho). split; [|eauto].
    apply (proj1 (nth_error_Some sweep_offsets (length entries))). congruence.
Qed.

End SegmenterFurther.

(** On the same image the offsets of the returned list run from 1 to 199. *)
Lemma hypotheses_are_ordered_witness :
  fst (segment_compartments_from_holes (SK := skimage_standin) two_blobs fresh_world)
  = Ok two_blobs_hypotheses
  /\ StronglySorted Z.le (map offset two_blobs_hypotheses).
Proof.
  assert (H : fst (segment_compartments_from_holes (SK := skimage_standin)
                     two_blobs fresh_world) = Ok two_blobs_hypotheses)
    by (vm_compute; reflexivity).
  split; [exact H|].
  exact (hypotheses_are_ordered_by_offset (SK := skimage_standin) _ _ _ H).
Defined.

(* ================================================================== *)
(** * Further properties of the stack driver *)
(* ================================================================== *)

Lemma col_or_nan_length (name : string) (df : DataFrame) :
  well_formed_frame df -> length (col_or_nan name df) = nrows df.
Proof.
  unfold col_or_nan, well_formed_frame. intro Hwf.
  destruct (lookup_column name (columns df)) as [vs|] eqn:E.
  - apply lookup_column_In in E. rewrite Forall_forall in Hwf.
    exact (Hwf _ E).
  - apply repeat_length.
Qed.

Lemma append_well_formed (out df : DataFrame) :
  well_formed_frame out -> well_formed_frame df ->
  well_formed_frame (append out df)
  /\ nrows (append out df) = (nrows out + nrows df)%nat.
Proof.
  intros Hout Hdf. unfold append, well_formed_frame, nrows. cbn [index columns].
  rewrite length_app. split; [|reflexivity].
  apply Forall_forall. intros [n vs] Hin. apply in_map_iff in Hin.
  destruct Hin as (n' & Heq & _). inv Heq. simpl.
  rewrite length_app, !col_or_nan_length; trivial.
Qed.

Lemma set_column_well_formed (n : nat) (name : string) (vs : list cell)
    (cols : list (string * list cell)) :
  Forall (fun c => length (snd c) = n) cols -> length vs = n ->
  Forall (fun c => length (snd c) = n) (set_column name vs cols).
Proof.
  intros Hcols Hvs. induction Hcols as [|[m old] cols Hc Hcols IH]; simpl.
  - constructor; [exact Hvs | constructor].
  - destruct (String.eqb m name); constructor; trivial.
Qed.

Lemma range_index_length (n : nat) : length (range_index n) = n.
Proof. unfold range_index. now rewrite length_map, length_seq. Qed.

Lemma DataFrame_of_records_well_formed (records : list PolygonHypothesis) :
  well_formed_frame (DataFrame_of_records records)
  /\ nrows (DataFrame_of_records records) = length records.
Proof.
  destruct records as [|h records]; [split; [constructor | reflexivity]|].
  unfold DataFrame_of_records, well_formed_frame, nrows. cbn [index columns].
  rewrite range_index_length. split; [|reflexivity].
  repeat constructor; simpl; now rewrite length_map.
Qed.

Lemma loc_set_scalar_well_formed (df df' : DataFrame) (name : string) (v : cell) :
  well_formed_frame df -> loc_set_scalar df name v = Ok df' ->
  well_formed_frame df' /\ nrows df' = nrows df.
Proof.
  unfold loc_set_scalar. intros Hwf H.
  assert (Hset : well_formed_frame
                   (mk_DataFrame (index df)
                      (set_column name (repeat v (nrows df)) (columns df)))).
  { unfold well_formed_frame, nrows. cbn [index columns].
    apply set_column_well_formed; [exact Hwf | apply repeat_length]. }
  destruct (has_column name df); [|destruct (nrows df =? 0)%nat; [discriminate|]];
    inv H; auto.
Qed.

Section ZStackFurther.
Context {SK : Skimage} {store : Type} {CO : Collaborators store}.

Lemma zstack_loop_with_image (s : CachedImageFile store) (channel frame z ix : Z)
    (rest : list Z) (out : DataFrame) (w : world store) :
  ix_at s channel z frame = Some ix ->
  zstack_loop s channel frame (z :: rest) out w
  = match slice_frame s z ix w with
    | (Ok df, w') => zstack_loop s channel frame rest (append out df) w'
    | (Raise e, w') => (Raise e, w')
    end.
Proof.
  intro E. simpl. rewrite E. unfold slice_frame, bind.
  destruct (image s ix w) as [[md|e] w1]; trivial.
  destruct (log_debug (ProcessingZ z) w1) as [[u|e] w2]; trivial.
  destruct (cached_step _ _ _ _ w2) as [[comps|e] w3]; trivial.
  destruct (lift (loc_set_scalar _ _ _) w3) as [[df|e] w4]; trivial.
  destruct (simple_polygon df w4) as [[df1|e] w5]; trivial.
Qed.

Lemma zstack_loop_app (s : CachedImageFile store) (channel frame : Z)
    (zs zs' : list Z) :
  forall out w,
    zstack_loop s channel frame (zs ++ zs') out w
    = match zstack_loop s channel frame zs out w with
      | (Ok out', w') => zstack_loop s channel frame zs' out' w'
      | (Raise e, w') => (Raise e, w')
      end.
Proof.
  induction zs as [|z zs IH]; intros out w; [reflexivity|].
  rewrite <- app_comm_cons.
  destruct (ix_at s channel z frame) as [ix|] eqn:E.
  - rewrite !(zstack_loop_with_image _ _ _ _ _ _ _ _ E).
    destruct (slice_frame s z ix w) as [[df|e] w1]; [apply IH | reflexivity].
  - simpl. rewrite E. apply IH.
Qed.

(** A slice that raises is not skipped and not isolated: when the frame of
    a z-index with an image cannot be built (the image source, the cached
    segmentation, the z tag or one of the two transformations raises), the
    whole call raises that exception and the rows of the slices before it are
    not returned. *)
Theorem failing_slice_ends_the_stack
    (s : CachedImageFile store) (channel frame : Z)
    (before after : list Z) (z ix : Z) (out1 : DataFrame)
    (w w1 w2 : world store) (e : exn) :
  zstacks s = before ++ z :: after ->
  zstack_loop s channel frame before empty_frame w = (Ok out1, w1) ->
  ix_at s channel z frame = Some ix ->
  slice_frame s z ix w1 = (Raise e, w2) ->
  segment_zstack s channel frame w = (Raise e, w2).
Proof.
  intros Hzs Hbefore Hix Hslice. unfold segment_zstack, bind.
  rewrite Hzs, zstack_loop_app, Hbefore.
  rewrite (zstack_loop_with_image _ _ _ _ _ _ _ _ Hix), Hslice. reflexivity.
Qed.

(** A slice in which the segmenter finds no polygon makes the whole call
    raise: its frame has neither rows nor columns, and pandas refuses to add
    the z column to such a frame with a scalar.  The exception is the
    [ValueError] of line 73, whatever the slices before it held. *)
Theorem slice_without_polygons_raises
    (s : CachedImageFile store) (channel frame : Z)
    (before after : list Z) (z ix : Z) (out1 : DataFrame) (md : ImageMetadata)
    (w w1 w2 w3 : world store) :
  zstacks s = before ++ z :: after ->
  zstack_loop s channel frame before empty_frame w = (Ok out1, w1) ->
  ix_at s channel z frame = Some ix ->
  image s ix w1 = (Ok md, w2) ->
  cached_step (bags_filename md) segment_compartments_from_holes (md_image md)
    (cache_path s) (mk_world (log w2 ++ [ProcessingZ z]) (disk_store w2))
  = (Ok [], w3) ->
  segment_zstack s channel frame w
  = (Raise (ValueError "cannot set a frame with no defined index and a scalar"), w3).
Proof.
  intros Hzs Hbefore Hix Himg Hcached.
  apply (failing_slice_ends_the_stack s channel frame before after z ix out1 w w1 w3 _
           Hzs Hbefore Hix).
  unfold slice_frame, bind. rewrite Himg. unfold log_debug at 1.
  rewrite Hcached. reflexivity.
Qed.

Lemma zstack_loop_well_formed (s : CachedImageFile store) (channel frame : Z) :
  keeps_well_formed simple_polygon -> keeps_well_formed concentric ->
  forall zs out w table,
    well_formed_frame out ->
    fst (zstack_loop s channel frame zs out w) = Ok table ->
    well_formed_frame table.
Proof.
  intros Hsp Hco. induction zs as [|z zs IH]; intros out w table Hout H.
  - simpl in H. now inv H.
  - destruct (ix_at s channel z frame) as [ix|] eqn:E.
    + rewrite (zstack_loop_with_image _ _ _ _ _ _ _ _ E) in H.
      destruct (slice_frame s z ix w) as [[df|e] w'] eqn:Eslice; [|discriminate].
      apply (IH (append out df) w'); trivial.
      apply append_well_formed; trivial.
      unfold slice_frame, bind in Eslice.
      destruct (image s ix w) as [[md|e] w1]; [|discriminate].
      destruct (log_debug (ProcessingZ z) w1) as [[u|e] w2]; [|discriminate].
      destruct (cached_step _ _ _ _ w2) as [[comps|e] w3]; [|discriminate].
      unfold lift in Eslice.
      destruct (loc_set_scalar (DataFrame_of_records comps) "z" (CInt z))
        as [df0|e] eqn:Eset; [|discriminate].
      destruct (simple_polygon df0 w3) as [[df1|e] w5] eqn:E1; [|discriminate].
      apply (Hco df1 w5 df w'); [|exact Eslice].
      apply (Hsp df0 w3 df1 w5); [|exact E1].
      apply (loc_set_scalar_well_formed _ _ _ _
               (proj1 (DataFrame_of_records_well_formed comps)) Eset).
    + simpl in H. rewrite E in H. now apply (IH out w).
Qed.

(** The table of a stack is well-formed and densely indexed: when the two
    transformations of the pipe return well-formed frames for well-formed
    frames, every column of the returned table has one cell per row, and the
    row labels are 0, 1, ..., n - 1, whatever labels the slices' frames had. *)
Theorem stack_table_is_well_formed_and_dense
    (s : CachedImageFile store) (channel frame : Z) (w : world store)
    (table : DataFrame) :
  keeps_well_formed simple_polygon -> keeps_well_formed concentric ->
  fst (segment_zstack s channel frame w) = Ok table ->
  well_formed_frame table
  /\ index table = map Z.of_nat (seq 0 (nrows table)).
Proof.
  intros Hsp Hco H. unfold segment_zstack, bind in H.
  destruct (zstack_loop s channel frame (zstacks s) empty_frame w)
    as [[out|e] w'] eqn:Eloop; [|discriminate].
  simpl in H. inv H.
  assert (Hout : well_formed_frame out).
  { apply (zstack_loop_well_formed s channel frame Hsp Hco (zstacks s) empty_frame w).
    - constructor.
    - now rewrite Eloop. }
  unfold reset_index_drop, well_formed_frame, nrows in *. cbn [index columns].
  rewrite range_index_length. split; [exact Hout | reflexivity].
Qed.

End ZStackFurther.

Lemma keeps_well_formed_ret {store : Type} :
  keeps_well_formed (store := store) (fun df => ret df).
Proof. intros df w df' w' Hwf H. now inv H. Qed.

(** A stack whose second slice has an image without pixels: the first slice
    is segmented, the second raises, and so does the call. *)
Lemma failing_slice_witness :
  fst (segment_zstack (SK := skimage_standin) (CO := collaborators_standin)
         stack_with_a_bad_slice 0 0 fresh_world)
  = Raise (ValueError "zero-size array to reduction operation minimum which has no identity").
Proof.
  pose (r1 := zstack_loop (SK := skimage_standin) (CO := collaborators_standin)
                stack_with_a_bad_slice 0 0 [0] empty_frame fresh_world).
  pose (r2 := slice_frame (SK := skimage_standin) (CO := collaborators_standin)
                stack_with_a_bad_slice 1 1 (snd r1)).
  rewrite (failing_slice_ends_the_stack (SK := skimage_standin)
             (CO := collaborators_standin) stack_with_a_bad_slice 0 0
             [0] [] 1 1
             (match fst r1 with Ok t => t | Raise _ => empty_frame end)
             fresh_world (snd r1) (snd r2)
             (ValueError "zero-size array to reduction operation minimum which has no identity")).
  - reflexivity.
  - reflexivity.
  - vm_compute. reflexivity.
  - reflexivity.
  - vm_compute. reflexivity.
Defined.

(** The stack whose one image is the white square: no contour at any offset, no
    polygon, and the call raises. *)
Lemma slice_without_polygons_witness :
  fst (segment_zstack (SK := skimage_standin) (CO := collaborators_standin)
         flat_stack 0 0 fresh_world)
  = Raise (ValueError "cannot set a frame with no defined index and a scalar").
Proof.
  pose (r := cached_step (Collaborators := collaborators_standin)
               (bags_filename (mk_metadata white_square 0 0 0))
               (segment_compartments_from_holes (SK := skimage_standin))
               white_square "cache" (mk_world [ProcessingZ 0] [])).
  rewrite (slice_without_polygons_raises (SK := skimage_standin)
             (CO := collaborators_standin) flat_stack 0 0
             [] [] 0 0 empty_frame (mk_metadata white_square 0 0 0)
             fresh_world fresh_world fresh_world (snd r)).
  - reflexivity.
  - reflexivity.
  - reflexivity.
  - reflexivity.
  - reflexivity.
  - vm_compute. reflexivity.
Defined.

(** The sparse stack: its table is well-formed, with the labels 0 to 198. *)
Lemma stack_table_is_well_formed_witness :
  fst (segment_zstack (SK := skimage_standin) (CO := collaborators_standin)
         sparse_stack 0 0 fresh_world)
  = Ok sparse_stack_table
  /\ well_formed_frame sparse_stack_table
  /\ index sparse_stack_table = map Z.of_nat (seq 0 (nrows sparse_stack_table)).
Proof.
  assert (H : fst (segment_zstack (SK := skimage_standin) (CO := collaborators_standin)
                     sparse_stack 0 0 fresh_world) = Ok sparse_stack_table)
    by (vm_compute; reflexivity).
  split; [exact H|].
  exact (stack_table_is_well_formed_and_dense (SK := skimage_standin)
           (CO := collaborators_standin) sparse_stack 0 0 fresh_world _
           keeps_well_formed_ret keeps_well_formed_ret H).
Defined.

(* ================================================================== *)
(** ** The name of a cache entry *)
(* ================================================================== *)

Lemma string_of_uint_decimal (d : Decimal.uint) :
  string_forall is_decimal_char (NilEmpty.string_of_uint d) = true.
Proof. induction d; simpl; trivial. Qed.

Lemma str_of_int_decimal (n : Z) : string_forall is_decimal_char (str_of_int n) = true.
Proof.
  unfold str_of_int, NilZero.string_of_int, NilZero.string_of_uint.
  destruct (Z.to_int n) as [d|d]; destruct d; simpl; trivial;
    apply string_of_uint_decimal.
Qed.

Lemma str_of_int_inj (n n' : Z) : str_of_int n = str_of_int n' -> n = n'.
Proof.
  unfold str_of_int. intro H. apply DecimalZ.to_int_inj.
  assert (Hnn : forall z, Z.to_int z <> Decimal.Pos Decimal.Nil
                          /\ Z.to_int z <> Decimal.Neg Decimal.Nil).
  { intros [|p|p]; simpl; split; try discriminate;
      intro E; injection E as E; exact (DecimalPos.Unsigned.to_uint_nonnil p E). }
  apply (f_equal NilZero.int_of_string) in H.
  rewrite !NilZero.isi in H; try apply Hnn. now injection H.
Qed.

Lemma string_split_unique (x : ascii) (u u' r r' : string) :
  string_forall (fun a => negb (Ascii.eqb a x)) u = true ->
  string_forall (fun a => negb (Ascii.eqb a x)) u' = true ->
  (u ++ String x r)%string = (u' ++ String x r')%string ->
  u = u' /\ r = r'.
Proof.
  revert u'. induction u as [|a u IH]; intros [|a' u'] Hu Hu' H; simpl in *.
  - now inv H.
  - inv H. rewrite Ascii.eqb_refl in Hu'. discriminate.
  - inv H. rewrite Ascii.eqb_refl in Hu. discriminate.
  - apply andb_true_iff in Hu, Hu'. inv H.
    destruct (IH u' (proj2 Hu) (proj2 Hu') H2) as [-> ->]. auto.
Qed.

Lemma string_forall_weaken (P Q : ascii -> bool) (s : string) :
  (forall a, P a = true -> Q a = true) ->
  string_forall P s = true -> string_forall Q s = true.
Proof.
  intro HPQ. induction s as [|a s IH]; simpl; trivial.
  intro H. apply andb_true_iff in H. destruct H as [Ha Hs].
  now rewrite (HPQ _ Ha), (IH Hs).
Qed.

Lemma string_length_append (s t : string) :
  String.length (s ++ t)%string = (String.length s + String.length t)%nat.
Proof. induction s as [|a s IH]; simpl; [reflexivity | now rewrite IH]. Qed.

Lemma string_append_right_cancel (t s s' : string) :
  (s ++ t)%string = (s' ++ t)%string -> s = s'.
Proof.
  intro H.
  assert (Hlen : String.length s = String.length s').
  { apply (f_equal String.length) in H. rewrite !string_length_append in H. lia. }
  revert s' H Hlen. induction s as [|a s IH]; intros [|a' s'] H Hlen;
    simpl in *; try discriminate; trivial.
  inv H. f_equal. apply IH; [assumption | lia].
Qed.

(** The name of a cache entry determines the coordinate of its slice: two
    images whose metadata differ in z, channel or frame get different file
    names, so within one cache folder no two coordinates share an entry. *)
Theorem bags_filename_injective (md md' : ImageMetadata) :
  bags_filename md = bags_filename md' ->
  md_z md = md_z md' /\ md_channel md = md_channel md' /\ md_frame md = md_frame md'.
Proof.
  unfold bags_filename. simpl. intro H. injection H as H.
  assert (Hno : forall x n, is_decimal_char x = false ->
                  string_forall (fun a => negb (Ascii.eqb a x)) (str_of_int n) = true).
  { intros x n Hx. apply (string_forall_weaken is_decimal_char); [|apply str_of_int_decimal].
    intros a Ha. destruct (Ascii.eqb a x) eqn:E; trivial.
    apply Ascii.eqb_eq in E. congruence. }
  apply string_split_unique in H; try (apply Hno; reflexivity).
  destruct H as [Hz H]. apply string_split_unique in H; try (apply Hno; reflexivity).
  destruct H as [Hc H]. apply string_append_right_cancel in H.
  repeat split; now apply str_of_int_inj.
Qed.

(** Two images at the coordinate (2, 0, 0) get the same name. *)
Lemma bags_filename_witness :
  bags_filename (mk_metadata two_blobs 2 0 0) = "z2c0t0-bags.obj"
  /\ bags_filename (mk_metadata two_blobs 12 0 3) <> bags_filename (mk_metadata two_blobs 1 20 3)
  /\ md_z (mk_metadata two_blobs 2 0 0) = md_z (mk_metadata white_square 2 0 0).
Proof.
  split; [reflexivity|]. split; [discriminate|].
  exact (proj1 (bags_filename_injective (mk_metadata two_blobs 2 0 0)
                  (mk_metadata white_square 2 0 0) eq_refl)).
Defined.

(* ================================================================== *)
(** * Further properties of the clustering *)
(* ================================================================== *)

Lemma set_column_twice (name : string) (vs : list cell)
    (cols : list (string * list cell)) :
  set_column name vs (set_column name vs cols) = set_column name vs cols.
Proof.
  induction cols as [|[n old] cols IH]; simpl.
  - now rewrite String.eqb_refl.
  - destruct (String.eqb n name) eqn:E; simpl; rewrite E; [reflexivity | now rewrite IH].
Qed.

Section ClusteringFurther.
Context {SL : Sklearn}.

Lemma series_apply_first_without_centroid (good rest : list cell) (c : cell) :
  forallb has_centroid good = true ->
  has_centroid c = false ->
  series_apply centroid_of_cell (good ++ c :: rest)
  = Raise (no_attribute (type_name_of c) "centroid").
Proof.
  intros Hgood Hc. induction good as [|g good IH]; simpl.
  - destruct c as [z|q|p| |name [coords|]]; try discriminate; reflexivity.
  - simpl in Hgood. apply andb_true_iff in Hgood. destruct Hgood as [Hg Hgood].
    rewrite (IH Hgood).
    destruct g as [z|q|p| |name [coords|]]; try discriminate; reflexivity.
Qed.

Lemma series_apply_ok_all_have_centroid (col : list cell) (X : list (list (Q * Q))) :
  series_apply centroid_of_cell col = Ok X -> forallb has_centroid col = true.
Proof.
  revert X. induction col as [|c col IH]; intros X H; simpl in *; trivial.
  apply res_bind_ok in H. destruct H as (y & Hy & H).
  apply res_bind_ok in H. destruct H as (ys & Hys & _).
  rewrite (IH _ Hys), andb_true_r.
  destruct c as [z|q|p| |name [coords|]]; try discriminate; reflexivity.
Qed.

(** What the table must hold for clustering to get anywhere.  Without a
    boundary column the call raises [KeyError].  With one, the first cell
    whose value has no [centroid] attribute (an int, a float, NaN, any other
    object without it) makes the call raise Python's [AttributeError] for the
    type of that value, before the scaler or DBSCAN is handed anything and
    whatever [eps] and [min_samples] are.  So a call that returns was given a
    boundary column in which every cell has a centroid. *)
Theorem clustering_needs_cells_with_a_centroid (df : DataFrame) (eps : Q)
    (min_samples : Z) :
  (has_column "boundary" df = false ->
   cluster_by_centroid df eps min_samples = Raise (KeyError "boundary"))
  /\ (forall good c rest,
        lookup_column "boundary" (columns df) = Some (good ++ c :: rest) ->
        forallb has_centroid good = true ->
        has_centroid c = false ->
        cluster_by_centroid df eps min_samples
        = Raise (AttributeError
                   ("'" ++ type_name_of c ++ "' object has no attribute 'centroid'")))
  /\ (forall df',
        cluster_by_centroid df eps min_samples = Ok df' ->
        exists col,
          lookup_column "boundary" (columns df) = Some col
          /\ forallb has_centroid col = true).
Proof.
  unfold cluster_by_centroid, getitem, has_column.
  destruct (lookup_column "boundary" (columns df)) as [col|]; simpl.
  - split; [discriminate|]. split.
    + intros good c rest Heq Hgood Hc. inv Heq.
      rewrite (series_apply_first_without_centroid _ _ _ Hgood Hc). reflexivity.
    + intros df' H. exists col. split; [reflexivity|].
      destruct (series_apply centroid_of_cell col) as [X|e] eqn:E; [|discriminate].
      exact (series_apply_ok_all_have_centroid _ _ E).
  - split; [reflexivity|]. split; [|discriminate].
    intros good c rest Heq. discriminate.
Qed.

(** Clustering keeps the table well-formed: on a well-formed table a call
    that returns gives a well-formed table with as many rows. *)
Theorem clustering_keeps_table_well_formed (df df' : DataFrame) (eps : Q)
    (min_samples : Z) :
  well_formed_frame df ->
  cluster_by_centroid df eps min_samples = Ok df' ->
  well_formed_frame df' /\ nrows df' = nrows df.
Proof.
  intros Hwf H. rewrite cluster_by_centroid_steps in H.
  apply res_bind_ok in H. destruct H as (X & _ & H).
  apply res_bind_ok in H. destruct H as (labels & _ & H).
  unfold assign in H.
  destruct (length (map CInt labels) =? nrows df)%nat eqn:E; [|discriminate].
  apply Nat.eqb_eq in E. inv H.
  unfold well_formed_frame, nrows in *. cbn [index columns].
  split; [|reflexivity]. now apply set_column_well_formed.
Qed.

(** Clustering a clustered table again changes nothing: a second call with
    the same parameters on the table the first call returned returns that
    table. *)
Theorem clustering_again_returns_the_same_table (df df' : DataFrame) (eps : Q)
    (min_samples : Z) :
  cluster_by_centroid df eps min_samples = Ok df' ->
  cluster_by_centroid df' eps min_samples = Ok df'.
Proof.
  intro H. rewrite cluster_by_centroid_steps in *.
  apply res_bind_ok in H. destruct H as (X & HX & H).
  apply res_bind_ok in H. destruct H as (labels & Hl & H).
  unfold assign in H.
  destruct (length (map CInt labels) =? nrows df)%nat eqn:E; [|discriminate].
  inv H.
  assert (HX' : standardized_centroids
                  (mk_DataFrame (index df)
                     (set_column "cluster" (map CInt labels) (columns df))) = Ok X).
  { unfold standardized_centroids, getitem in *. cbn [columns].
    rewrite lookup_set_column_other; [exact HX | discriminate]. }
  rewrite HX'. simpl. rewrite Hl. simpl.
  unfold assign, nrows in *. cbn [index columns]. rewrite E, set_column_twice.
  reflexivity.
Qed.

End ClusteringFurther.

(** The two-row table comes back well-formed with two rows. *)
Lemma clustering_keeps_table_well_formed_witness :
  well_formed_frame two_row_table
  /\ exists df',
       cluster_by_centroid (SL := sklearn_standin) two_row_table default_eps 2 = Ok df'
       /\ well_formed_frame df' /\ nrows df' = 2%nat.
Proof.
  assert (Hwf : well_formed_frame two_row_table) by (repeat constructor).
  split; [exact Hwf|]. eexists. split; [reflexivity|].
  exact (clustering_keeps_table_well_formed (SL := sklearn_standin)
           two_row_table _ default_eps 2 Hwf eq_refl).
Defined.

(** The two-row table clustered, then the result clustered again. *)
Lemma clustering_again_witness :
  exists df',
    cluster_by_centroid (SL := sklearn_standin) two_row_table default_eps 2 = Ok df'
    /\ cluster_by_centroid (SL := sklearn_standin) df' default_eps 2 = Ok df'.
Proof.
  eexists. split; [reflexivity|].
  exact (clustering_again_returns_the_same_table (SL := sklearn_standin)
           two_row_table _ default_eps 2 eq_refl).
Defined.

(** A table whose boundary column holds a triangle, then NaN, then a
    number: the exception names the float. *)
Lemma clustering_needs_polygons_witness :
  cluster_by_centroid (SL := sklearn_standin)
    (mk_DataFrame [0; 1; 2] [("boundary", [CPolygon triangle; CNaN; CInt 5])])
    default_eps default_min_samples
  = Raise (AttributeError "'float' object has no attribute 'centroid'").
Proof.
  apply (proj1 (proj2 (clustering_needs_cells_with_a_centroid (SL := sklearn_standin)
                         (mk_DataFrame [0; 1; 2]
                            [("boundary", [CPolygon triangle; CNaN; CInt 5])])
                         default_eps default_min_samples))
           [CPolygon triangle] CNaN [CInt 5] eq_refl eq_refl eq_refl).
Defined.
